(** * Timing-batting minigame: pitch timing, swing classification and scoring

    A shallow embedding of the game logic of the repository:
    - [game/utils.ts]     : [clamp], [lerp], [rand], [plateTimeMsFromMph],
                            [estimateDistance], [advanceBases];
    - [game/constants.ts] : [CONTACT_PROGRESS], [PERFECT], [GOOD], [OKAY], [FOUL];
    - [game/types.ts]     : [Runners], [HitResult];
    - [screens/ScreenBaseballTiming.tsx] : the component's state, [startPitch],
      the animation-frame [step], [settleResult], [doSwing], the effects on
      [outs] and [pitches], and [resetAll];
    - [io/ble.ts]         : [handleNotify], the debounced swing notification
      of [useBleSwing].

    Numbers.  A JavaScript [number] is an IEEE 754 binary64 value.  Quantities
    that are measured (progress, time stamps, velocities, durations) are
    modelled by Rocq's primitive [float], which is binary64 with the same
    rounding, so that the comparisons of the source are the comparisons of
    the model.  Counters (strikes, outs, runs, pitches, the pitch limit, the
    number of bases gained) only ever hold integers that are far below 2^53,
    where binary64 arithmetic is exact; they are modelled by [Z]. *)

From Stdlib Require Import ZArith List Bool Lia.
From Stdlib Require Import Floats.PrimFloat.
From Stdlib Require Uint63.
From Stdlib Require Floats.SpecFloat Floats.FloatOps Floats.FloatAxioms.
From Stdlib Require Strings.String Strings.Ascii.
Import ListNotations.

Set Warnings "-inexact-float".
Local Open Scope Z_scope.

(** ** JavaScript primitives used by the source *)

Module JS.

(** [Math.min] and [Math.max]: NaN is contagious and -0 is below +0. *)
Definition Math_min (a b : float) : float :=
  if is_nan a || is_nan b then nan
  else if ltb a b then a
  else if ltb b a then b
  else if is_zero a && get_sign a then a else b.

Definition Math_max (a b : float) : float :=
  if is_nan a || is_nan b then nan
  else if ltb a b then b
  else if ltb b a then a
  else if is_zero a && get_sign a then b else a.

Definition Math_abs (a : float) : float := abs a.

Definition Math_PI : float := 3.141592653589793%float.

(** Truthiness of a [number | null] reference: [null], [0], [-0] and NaN
    are falsy, every other number is truthy. *)
Definition truthy (r : option float) : bool :=
  match r with
  | None => false
  | Some x => negb (is_zero x || is_nan x)
  end.

(** [a || b] on a [number | null] left operand and a number right operand. *)
Definition or_else (r : option float) (d : float) : float :=
  match r with
  | Some x => if truthy r then x else d
  | None => d
  end.

(** Reading an array element; a missing element reads as [undefined],
    which every use below only tests for truth. *)
Definition array_get (l : list bool) (i : Z) : bool :=
  if i <? 0 then false else nth (Z.to_nat i) l false.

Fixpoint set_nth (k : nat) (v : bool) (l : list bool) : list bool :=
  match k, l with
  | O, _ :: t => v :: t
  | O, [] => [v]
  | S k', x :: t => x :: set_nth k' v t
  | S k', [] => false :: set_nth k' v []
  end.

(** Writing [l[j] = v] with an integer [j]: inside the array the element
    is replaced, past its end the array is extended (the holes read as
    falsy), and a negative [j] creates a property that is no element, so
    the elements are unchanged. *)
Definition array_set (l : list bool) (j : Z) (v : bool) : list bool :=
  if j <? 0 then l else set_nth (Z.to_nat j) v l.

End JS.

(** ** game/types.ts *)

Inductive PitchType := straight | slider | curve | sinker.

Record Runners := mkRunners { on1 : bool; on2 : bool; on3 : bool }.

Inductive StrikeReason := early | late | miss.

Inductive HitKind := single | double | triple | homerun.

Inductive HitResult :=
| Strike (reason : StrikeReason)
| Foul (timingDelta : float)
| Hit (kind : HitKind) (timingDelta exitVelo launchDeg distance : float).

(** ** game/constants.ts *)

Definition CONTACT_PROGRESS : float := 0.86%float.
Definition PERFECT : float := 0.010%float.
Definition GOOD : float := 0.020%float.
Definition OKAY : float := 0.035%float.
Definition FOUL : float := 0.055%float.

(** ** game/utils.ts *)

Definition clamp (v lo hi : float) : float := JS.Math_max lo (JS.Math_min hi v).

Definition lerp (a b t : float) : float := (a + (b - a) * t)%float.

(** [rand a b] draws [Math.random()]; the draw [u] is an input of the model. *)
Definition rand (a b u : float) : float := lerp a b u.

Definition plateTimeMsFromMph (mph : float) : float :=
  lerp 2000 400 (clamp ((mph - 20) / (100 - 20)) 0 1).

Definition noRunners : Runners := mkRunners false false false.

(** Number of occupied bases. *)
Definition occupied (r : Runners) : Z :=
  Z.of_nat (length (filter (fun b : bool => b) [on1 r; on2 r; on3 r])).

(** One iteration of the loop of [advanceBases] at index [i]: the pair is
    ([nextArr], [scored]). *)
Definition advance_runner (arr : list bool) (n : Z) (acc : list bool * Z) (i : Z)
  : list bool * Z :=
  let '(nextArr, scored) := acc in
  if negb (JS.array_get arr i) then acc
  else
    let j := i + n in
    if 3 <=? j then (nextArr, scored + 1)
    else (JS.array_set nextArr j true, scored).

(** Placing the batter after the loop. *)
Definition place_batter (n : Z) (acc : list bool * Z) : list bool * Z :=
  let '(nextArr, scored) := acc in
  let batterIndex := n - 1 in
  if 3 <=? batterIndex then (nextArr, scored + 1)
  else (JS.array_set nextArr batterIndex true, scored).

Definition advanceBases (state : Runners) (n : Z) : Runners * Z :=
  let arr := [on1 state; on2 state; on3 state] in
  if 4 <=? n then
    (noRunners, Z.of_nat (length (filter (fun b : bool => b) arr)) + 1)
  else
    let '(nextArr, scored) :=
      place_batter n
        (fold_left (advance_runner arr n) [2; 1; 0] ([false; false; false], 0)) in
    (mkRunners (JS.array_get nextArr 0) (JS.array_get nextArr 1) (JS.array_get nextArr 2),
     scored).

(** [estimateDistance]: [Math.sin] is implementation-approximated, so the
    platform's sine is an argument. *)
Definition estimateDistance (Math_sin : float -> float) (exitVelo launchDeg : float)
  : float :=
  let g := 9.81%float in
  let v := exitVelo in
  let theta := (launchDeg * JS.Math_PI / 180)%float in
  let raw := (v * v * Math_sin (2 * theta) / g)%float in
  let drag := 0.82%float in
  JS.Math_max 0 (raw * drag).

(** ** screens/ScreenBaseballTiming.tsx: the component's state *)

(** The [useState] cells of the game (the settings cells other than [mph]
    and the display toggle [assistBar] never reach the logic). *)
Record Session := mkSession {
  inPlay : bool;
  progress : float;
  result : option HitResult;
  strikes : Z;
  outs : Z;
  runs : Z;
  pitches : Z;
  maxPitches : Z;
  gameOver : bool;
  runners : Runners
}.

(** A state update, as queued by a setter and applied before the next render.
    Setters called in sequence apply in call order; every updater function of
    the source reads only the cell it updates, so applying each update as it
    is queued yields the state React commits for the batch.  (The component
    is mounted without [StrictMode], so an updater runs once.) *)
Definition Update := Session -> Session.

Definition seq_update (u1 u2 : Update) : Update := fun s => u2 (u1 s).
Notation "u1 ;; u2" := (seq_update u1 u2) (at level 61, left associativity).
Definition skip : Update := fun s => s.

Definition setInPlay (v : bool) : Update := fun s =>
  mkSession v (progress s) (result s) (strikes s) (outs s) (runs s)
            (pitches s) (maxPitches s) (gameOver s) (runners s).
Definition setProgress (v : float) : Update := fun s =>
  mkSession (inPlay s) v (result s) (strikes s) (outs s) (runs s)
            (pitches s) (maxPitches s) (gameOver s) (runners s).
Definition setResult (v : option HitResult) : Update := fun s =>
  mkSession (inPlay s) (progress s) v (strikes s) (outs s) (runs s)
            (pitches s) (maxPitches s) (gameOver s) (runners s).
Definition setGameOver (v : bool) : Update := fun s =>
  mkSession (inPlay s) (progress s) (result s) (strikes s) (outs s) (runs s)
            (pitches s) (maxPitches s) v (runners s).

(** Setters called with an updater function [prev => next]. *)
Definition setOuts (f : Z -> Z) : Update := fun s =>
  mkSession (inPlay s) (progress s) (result s) (strikes s) (f (outs s)) (runs s)
            (pitches s) (maxPitches s) (gameOver s) (runners s).
Definition setRuns (f : Z -> Z) : Update := fun s =>
  mkSession (inPlay s) (progress s) (result s) (strikes s) (outs s) (f (runs s))
            (pitches s) (maxPitches s) (gameOver s) (runners s).
Definition setPitches (f : Z -> Z) : Update := fun s =>
  mkSession (inPlay s) (progress s) (result s) (strikes s) (outs s) (runs s)
            (f (pitches s)) (maxPitches s) (gameOver s) (runners s).
Definition setMaxPitches (f : Z -> Z) : Update := fun s =>
  mkSession (inPlay s) (progress s) (result s) (strikes s) (outs s) (runs s)
            (pitches s) (f (maxPitches s)) (gameOver s) (runners s).

(** Two updaters of the source call another setter while they compute the
    next value: the updater returns the next value together with the update
    it queued, which applies after it. *)
Definition setStrikes (f : Z -> Z * Update) : Update := fun s =>
  let '(v, queued) := f (strikes s) in
  queued (mkSession (inPlay s) (progress s) (result s) v (outs s) (runs s)
                    (pitches s) (maxPitches s) (gameOver s) (runners s)).
Definition setRunners (f : Runners -> Runners * Update) : Update := fun s =>
  let '(v, queued) := f (runners s) in
  queued (mkSession (inPlay s) (progress s) (result s) (strikes s) (outs s) (runs s)
                    (pitches s) (maxPitches s) (gameOver s) v).

(** [settleResult].  [runners s] in the home-run branch is the value the
    closure captured at render time; [doSwing] is re-created whenever
    [inPlay] or [progress] changes, which every pitch start does, so the
    captured value is the current one whenever a swing is accepted. *)
Definition settleResult (r : HitResult) : Update := fun s =>
  (setResult (Some r) ;;
   match r with
   | Strike _ =>
       setStrikes (fun st =>
         let ns := st + 1 in
         if 3 <=? ns then (0, setOuts (fun o => o + 1)) else (ns, skip))
   | Foul _ =>
       setStrikes (fun st => (if st <? 2 then st + 1 else 2, skip)) ;;
       setMaxPitches (fun prev => prev + 1)
   | Hit homerun _ _ _ _ =>
       let runnersNow :=
         (if on1 (runners s) then 1 else 0) + (if on2 (runners s) then 1 else 0)
         + (if on3 (runners s) then 1 else 0) in
       setRuns (fun ru => ru + 5 + runnersNow) ;;
       setRunners (fun _ => (noRunners, skip)) ;;
       setStrikes (fun _ => (0, skip))
   | Hit kind _ _ _ _ =>
       setRuns (fun ru => ru + 1) ;;
       (let bases := match kind with single => 1 | double => 2 | _ => 3 end in
        setRunners (fun prev =>
          let '(next, scored) := advanceBases prev bases in
          (next, setRuns (fun ru => ru + scored)))) ;;
       setStrikes (fun _ => (0, skip))
   end) s.

(** The effect on [outs] (three outs end the half-inning). *)
Definition inningEffect : Update := fun s =>
  if 3 <=? outs s then
    (setOuts (fun _ => 0) ;; setStrikes (fun _ => (0, skip)) ;;
     setRunners (fun _ => (noRunners, skip))) s
  else s.

(** The effect on [pitches] (the pitch limit ends the game). *)
Definition gameOverEffect : Update := fun s =>
  if maxPitches s <=? pitches s then (setInPlay false ;; setGameOver true) s else s.

Definition resetAll : Update :=
  setStrikes (fun _ => (0, skip)) ;; setOuts (fun _ => 0) ;; setRuns (fun _ => 0) ;;
  setPitches (fun _ => 0) ;; setResult None ;;
  setInPlay false ;; setProgress 0 ;;
  setRunners (fun _ => (noRunners, skip)) ;;
  setGameOver false.

(** The component: its state cells, the velocity setting and its three
    [useRef] cells.  [requestAnimationFrame] returns a non-zero handle, so
    [rafRef] is truthy exactly while a frame callback is scheduled; in place
    of the handle the model keeps what the scheduled [step] closure
    captured, the flight duration [plateTime] of the render that started the
    pitch. *)
Record Screen := mkScreen {
  game : Session;
  mph : float;
  swingAtRef : option float;
  rafRef : option float;
  startTsRef : option float
}.

Definition update (u : Update) (c : Screen) : Screen :=
  mkScreen (u (game c)) (mph c) (swingAtRef c) (rafRef c) (startTsRef c).
Definition setSwingAt (v : option float) (c : Screen) : Screen :=
  mkScreen (game c) (mph c) v (rafRef c) (startTsRef c).
Definition setRaf (v : option float) (c : Screen) : Screen :=
  mkScreen (game c) (mph c) (swingAtRef c) v (startTsRef c).
Definition setStartTs (v : option float) (c : Screen) : Screen :=
  mkScreen (game c) (mph c) (swingAtRef c) (rafRef c) v.
Definition setMph (v : float) (c : Screen) : Screen :=
  mkScreen (game c) v (swingAtRef c) (rafRef c) (startTsRef c).

Definition cancelRaf (c : Screen) : Screen := setRaf None c.

Definition plateTime (c : Screen) : float := plateTimeMsFromMph (mph c).

(** [startPitch]; [now] is what [performance.now()] returns. *)
Definition startPitch (now : float) (c : Screen) : Screen :=
  if inPlay (game c) then c
  else
    let c := cancelRaf c in
    let c := update (setResult None ;; setInPlay true ;; setProgress 0) c in
    let c := setSwingAt None c in
    let c := setStartTs (Some now) c in
    let c := setRaf (Some (plateTime c)) c in
    update (setPitches (fun p => p + 1)) c.

(** The [else] branch of [step]: the ball has arrived. *)
Definition flightEnd (c : Screen) : Screen :=
  let c :=
    if negb (JS.truthy (swingAtRef c)) then
      update (settleResult (Strike miss)) c
    else
      match swingAtRef c with
      | Some swingAt =>
          let d := JS.Math_abs (swingAt - CONTACT_PROGRESS) in
          if ltb FOUL d then
            update (settleResult
                      (Strike (if ltb swingAt CONTACT_PROGRESS then early else late))) c
          else c
      | None => c
      end in
  let c := cancelRaf c in
  update (setInPlay false) c.

(** The animation-frame callback [step], run when a frame fires while a
    callback is scheduled. *)
Definition step (now : float) (c : Screen) : Screen :=
  match rafRef c with
  | None => c
  | Some plateTime =>
      let elapsed := (now - JS.or_else (startTsRef c) now)%float in
      let t := clamp (elapsed / plateTime) 0 1 in
      let c := update (setProgress t) c in
      if ltb t 1 then setRaf (Some plateTime) c else flightEnd c
  end.

(** What the platform contributes to one swing: the two [Math.random()]
    draws of [rand] and its sine. *)
Record Platform := mkPlatform {
  random1 : float;
  random2 : float;
  Math_sin : float -> float
}.

(** The decision ladder of [doSwing] on the timing error [delta]: the result
    that is settled at once, if any. *)
Definition classify (env : Platform) (delta : float) : option HitResult :=
  if leb delta PERFECT then
    let exitV := rand 43 50 (random1 env) in
    let launch := rand 24 32 (random2 env) in
    Some (Hit homerun delta exitV launch (estimateDistance (Math_sin env) exitV launch))
  else if leb delta GOOD then
    let exitV := rand 38 46 (random1 env) in
    let launch := rand 18 28 (random2 env) in
    Some (Hit double delta exitV launch (estimateDistance (Math_sin env) exitV launch))
  else if leb delta OKAY then
    let exitV := rand 32 42 (random1 env) in
    let launch := rand 10 22 (random2 env) in
    let kind := if ltb delta (OKAY * 0.6) then double else single in
    Some (Hit kind delta exitV launch (estimateDistance (Math_sin env) exitV launch))
  else if leb delta FOUL then
    Some (Foul delta)
  else None.

(** [doSwing].  In the source each of the first four branches of the ladder
    builds its result, calls [settleResult] on it and then
    [setInPlay(false)]; the last branch is empty. *)
Definition doSwing (env : Platform) (c : Screen) : Screen :=
  if negb (inPlay (game c)) then c
  else
    let t := progress (game c) in
    let c := setSwingAt (Some t) c in
    let delta := JS.Math_abs (t - CONTACT_PROGRESS) in
    match classify env delta with
    | Some r => update (settleResult r ;; setInPlay false) c
    | None => c
    end.

(** ** The component as a transition system *)

Inductive Event :=
| Pitch (now : float)          (* the pitch button, Enter, or the pacing timer *)
| Frame (now : float)          (* an animation frame *)
| Swing (env : Platform)       (* the swing button, Space, or the sensor *)
| Reset                        (* either reset button *)
| Velocity (v : float).        (* the velocity slider *)

Definition dispatch (e : Event) (c : Screen) : Screen :=
  match e with
  | Pitch now => startPitch now c
  | Frame now => step now c
  | Swing env => doSwing env c
  | Reset => update resetAll c
  | Velocity v => setMph v c
  end.

(** After the render that follows an event, an effect runs when the cell it
    depends on has changed. *)
Definition effects (before : Session) : Update := fun s =>
  let s := if outs before =? outs s then s else inningEffect s in
  if pitches before =? pitches s then s else gameOverEffect s.

Definition handle (c : Screen) (e : Event) : Screen :=
  update (effects (game c)) (dispatch e c).

Definition run (es : list Event) (c : Screen) : Screen := fold_left handle es c.

(** The state at mount. *)
Definition initialSession : Session :=
  mkSession false 0 None 0 0 0 0 5 false noRunners.
Definition initialScreen : Screen :=
  mkScreen initialSession 85 None None None.

Definition Reachable (c : Screen) : Prop := exists es, run es initialScreen = c.

(** ** io/ble.ts: the swing notification handler of [useBleSwing] *)

(** A decoded text, as its sequence of UTF-16 code units. *)
Definition Text := list Z.

Fixpoint startsWith (text token : Text) : bool :=
  match token, text with
  | [], _ => true
  | _ :: _, [] => false
  | c :: token', d :: text' => (c =? d) && startsWith text' token'
  end.

(** [text.includes(token)]. *)
Fixpoint includes (text token : Text) : bool :=
  startsWith text token
  || match text with
     | [] => false
     | _ :: rest => includes rest token
     end.

(** The cells of the hook that the handler writes. *)
Record Ble := mkBle { lastMessage : Text; lastSwingAtRef : float }.

(** [handleNotify].  [value] is the text that the characteristic's value
    decodes and trims to, [None] when the characteristic has no value;
    [now] is what [performance.now()] returns; [toUpperCase] is the
    platform's upper-casing; [onSwing] is the registered callback, acting
    on the state [A] of whoever registered it. *)
Definition handleNotify {A : Type} (toUpperCase : Text -> Text)
           (swingToken : Text) (debounceMs : float) (onSwing : A -> A)
           (value : option Text) (now : float) (st : Ble * A) : Ble * A :=
  match value with
  | None => st
  | Some text =>
      let ble := mkBle text (lastSwingAtRef (fst st)) in
      if includes (toUpperCase text) (toUpperCase swingToken) then
        if leb debounceMs (now - lastSwingAtRef ble) then
          (mkBle text now, onSwing (snd st))
        else (ble, snd st)
      else (ble, snd st)
  end.

(** A sequence of notifications, each with the time it is handled at. *)
Definition notifyAll {A : Type} (toUpperCase : Text -> Text)
           (swingToken : Text) (debounceMs : float) (onSwing : A -> A)
           (notes : list (option Text * float)) (st : Ble * A) : Ble * A :=
  fold_left (fun st note =>
               handleNotify toUpperCase swingToken debounceMs onSwing
                            (fst note) (snd note) st)
            notes st.

(** The state of the hook at mount. *)
Definition initialBle : Ble := mkBle [] 0.

(** * Vocabulary of the statements *)

(** The indices of the three bases, in the order the loop visits them. *)
Definition loopOrder : list Z := [2; 1; 0].

(** Number of runners of [arr] whose base index satisfies [p]. *)
Definition countRunners (arr : list bool) (p : Z -> bool) : Z :=
  Z.of_nat (length (filter (fun i => JS.array_get arr i && p i) [0; 1; 2])).

(** The [kind] of a settled hit. *)
Definition hitKind (r : option HitResult) : option HitKind :=
  match r with
  | Some (Hit k _ _ _ _) => Some k
  | _ => None
  end.

(** The binary64 value of an integer velocity; the slider ([min] 70, [max]
    100, [step] 1) yields exactly the integers from 70 to 100. *)
Definition mphSetting (z : Z) : float := of_uint63 (Uint63.of_Z z).

Definition sliderSettings : list Z := map (fun k => 70 + Z.of_nat k) (seq 0 31).

(** [x] lies within [tol] of [y]. *)
Definition within (tol x y : float) : bool := leb (abs (x - y)) tol.

(** On the settings of [l]: a higher velocity has a strictly shorter flight. *)
Definition decreasingOn (l : list Z) : bool :=
  forallb (fun z1 =>
    forallb (fun z2 =>
      implb (z1 <? z2)
            (ltb (plateTimeMsFromMph (mphSetting z2))
                 (plateTimeMsFromMph (mphSetting z1)))) l) l.

(** On the settings of [l]: the flight lasts between [lo] and [hi]. *)
Definition boundedOn (lo hi : float) (l : list Z) : bool :=
  forallb (fun z =>
    leb lo (plateTimeMsFromMph (mphSetting z))
    && leb (plateTimeMsFromMph (mphSetting z)) hi) l.

(** ** Concrete runs *)

(** A platform for the concrete runs: two fixed draws and a truncated
    series for the sine. *)
Definition sampleEnv : Platform :=
  mkPlatform 0.5 0.25 (fun x => (x - x * x * x / 6 + x * x * x * x * x / 120)%float).

(** A pitch at the default 85 mph (700 ms of flight), sampled 602 ms after
    release: progress 0.86. *)
Definition atContact : Screen := run [Pitch 1000; Frame 1602] initialScreen.

(** A pitch fouled off: sampled 570 ms into a 700 ms flight, the swing is
    0.0457 early of the contact point. *)
Definition afterFoul : Screen :=
  run [Pitch 1000; Frame 1570; Swing sampleEnv] initialScreen.

(** Two outs, two strikes, bases loaded, four runs, third pitch in flight;
    the third strike has just made the third out. *)
Definition thirdOut : Session :=
  settleResult (Strike late)
    (mkSession true 1 None 2 2 4 3 5 false (mkRunners true true true)).

(** ** A rank for binary64 values

    A decoded value that is not NaN is ranked by a triple of integers
    compared in dictionary order: its class (infinities outermost, zeros in
    the middle), then exponent and mantissa, negated for negative values. *)

Definition rank (x : SpecFloat.spec_float) : option (Z * Z * Z) :=
  match x with
  | SpecFloat.S754_nan => None
  | SpecFloat.S754_infinity true => Some (-2, 0, 0)
  | SpecFloat.S754_infinity false => Some (2, 0, 0)
  | SpecFloat.S754_zero _ => Some (0, 0, 0)
  | SpecFloat.S754_finite false m e => Some (1, e, Zpos m)
  | SpecFloat.S754_finite true m e => Some (-1, - e, Zneg m)
  end.

Definition lexcmp (p q : Z * Z * Z) : comparison :=
  let '(a1, b1, c1) := p in
  let '(a2, b2, c2) := q in
  match a1 ?= a2 with
  | Eq => match b1 ?= b2 with Eq => c1 ?= c2 | r => r end
  | r => r
  end.

Definition lexle (p q : Z * Z * Z) : Prop :=
  let '(a1, b1, c1) := p in
  let '(a2, b2, c2) := q in
  a1 < a2 \/ (a1 = a2 /\ (b1 < b2 \/ (b1 = b2 /\ c1 <= c2))).

(** ** Ranges and relations between session states *)

(** The bases a hit other than a home run gains. *)
Definition basesGained (k : HitKind) : Z :=
  match k with single => 1 | double => 2 | _ => 3 end.

(** The ranges of the counters. *)
Definition countersInRange (s : Session) : Prop :=
  0 <= strikes s <= 2 /\ 0 <= outs s <= 2 /\ 0 <= runs s
  /\ 0 <= pitches s /\ 5 <= maxPitches s.

(** The progress is a fraction of the flight, or NaN. *)
Definition progressInRange (s : Session) : Prop :=
  is_nan (progress s) = true
  \/ (leb 0 (progress s) = true /\ leb (progress s) 1 = true).

(** What one handler may do to the counters of [s] on the way to [s']. *)
Definition advances (s s' : Session) : Prop :=
  runs s <= runs s'
  /\ pitches s <= pitches s' <= pitches s + 1
  /\ maxPitches s <= maxPitches s'
  /\ outs s <= outs s' <= outs s + 1
  /\ (0 <= strikes s <= 2 -> 0 <= strikes s' <= 2)
  /\ gameOver s' = gameOver s.

(** What never goes back while the session is not reset. *)
Definition continues (s s' : Session) : Prop :=
  runs s <= runs s' /\ pitches s <= pitches s' /\ maxPitches s <= maxPitches s'
  /\ (gameOver s = true -> gameOver s' = true).

Definition isReset (e : Event) : bool :=
  match e with Reset => true | _ => false end.

Definition isPitch (e : Event) : bool :=
  match e with Pitch _ => true | _ => false end.

Definition isSwing (e : Event) : bool :=
  match e with Swing _ => true | _ => false end.

(** The events other than swings, in their order. *)
Definition withoutSwings (es : list Event) : list Event :=
  filter (fun e => negb (isSwing e)) es.

(** A swing has settled the pitch: the play is over, and the swing on
    record is a non-zero number within the foul cutoff of the contact
    point. *)
Definition swingSettled (c : Screen) : Prop :=
  inPlay (game c) = false
  /\ exists t, swingAtRef c = Some t
               /\ JS.truthy (Some t) = true
               /\ ltb FOUL (JS.Math_abs (t - CONTACT_PROGRESS)) = false.

(** [s'] shows what [s] shows, the progress of the ball apart. *)
Definition sameScore (s s' : Session) : Prop :=
  result s' = result s /\ strikes s' = strikes s /\ outs s' = outs s
  /\ runs s' = runs s /\ runners s' = runners s
  /\ maxPitches s' = maxPitches s /\ pitches s' = pitches s
  /\ gameOver s' = gameOver s /\ inPlay s' = inPlay s.

(** The code units of "SWING" and of "swing", and an upper-casing of the
    ASCII letters for the concrete runs. *)
Definition SWING : Text := [83; 87; 73; 78; 71].
Definition swing : Text := [115; 119; 105; 110; 103].
Definition asciiUpper : Text -> Text :=
  map (fun u => if (97 <=? u) && (u <=? 122) then u - 32 else u).

(** The note at [t2] falls inside the debounce window opened at [t1]. *)
Definition insideWindow (debounceMs : float) (t1 t2 : float) : Prop :=
  leb debounceMs (t2 - t1) = false.

(** A pitch in flight has its frame callback scheduled and its start time
    recorded. *)
Definition flightScheduled (c : Screen) : Prop :=
  inPlay (game c) = true -> rafRef c <> None /\ startTsRef c <> None.

(** * Properties *)

(** ** Base advancement *)

Ltac runners_cases state :=
  destruct state as [[|] [|] [|]].

Lemma small_gain (n : Z) : 1 <= n <= 3 -> n = 1 \/ n = 2 \/ n = 3.
Proof. lia. Qed.

Lemma base_index (k : Z) : 0 <= k < 3 -> k = 0 \/ k = 1 \/ k = 2.
Proof. lia. Qed.

Lemma advanceBases_homerun (state : Runners) (n : Z) :
  4 <= n -> advanceBases state n = (noRunners, occupied state + 1).
Proof.
  intros Hn. unfold advanceBases.
  destruct (Z.leb_spec 4 n) as [_ | Hlt]; [reflexivity | lia].
Qed.

(** C1. For a gain [n] of 1, 2 or 3 bases, [advanceBases] visits the bases
    from third down to first and then places the batter; base [k] of the
    result is occupied exactly when the batter lands there ([k = n - 1]) or
    a runner of an occupied base [i] moves there ([i + n = k]); [scored]
    counts the runners with [i + n >= 3] (plus the batter, should [n - 1]
    reach 3); the runners that stay on base and the batter end on pairwise
    different bases, so the result has one occupied base for each of them;
    and with runners on first and third a single scores the runner from
    third, moves the runner from first to second, puts the batter on first
    and returns [scored = 1]. *)
Theorem C1_advanceBases_moves_runners (state : Runners) (n : Z) :
  1 <= n <= 3 ->
  let arr := [on1 state; on2 state; on3 state] in
  let next := fst (advanceBases state n) in
  let scored := snd (advanceBases state n) in
  let nextArr := [on1 next; on2 next; on3 next] in
  (let '(a, sc) :=
     place_batter n
       (fold_left (advance_runner arr n) loopOrder ([false; false; false], 0)) in
   JS.array_get a 0 = on1 next /\ JS.array_get a 1 = on2 next
   /\ JS.array_get a 2 = on3 next /\ sc = scored)
  /\ (forall k, 0 <= k < 3 ->
       JS.array_get nextArr k
       = (k =? n - 1)
         || existsb (fun i => JS.array_get arr i && (i + n =? k)) [0; 1; 2])
  /\ scored = countRunners arr (fun i => 3 <=? i + n)
              + (if 3 <=? n - 1 then 1 else 0)
  /\ occupied next = countRunners arr (fun i => i + n <? 3) + 1
  /\ advanceBases (mkRunners true false true) 1 = (mkRunners true true false, 1).
Proof.
  intros Hn. apply small_gain in Hn.
  cbv zeta.
  split; [| split; [| split; [| split]]].
  - destruct Hn as [-> | [-> | ->]]; runners_cases state; repeat split.
  - intros k Hk. apply base_index in Hk.
    destruct Hn as [-> | [-> | ->]]; destruct Hk as [-> | [-> | ->]];
      runners_cases state; reflexivity.
  - destruct Hn as [-> | [-> | ->]]; runners_cases state; reflexivity.
  - destruct Hn as [-> | [-> | ->]]; runners_cases state; reflexivity.
  - reflexivity.
Qed.

Lemma C1_advanceBases_moves_runners_witness :
  let state := mkRunners true false true in
  let next := fst (advanceBases state 1) in
  1 <= 1 <= 3
  /\ snd (advanceBases state 1)
     = countRunners [on1 state; on2 state; on3 state] (fun i => 3 <=? i + 1)
       + (if 3 <=? 1 - 1 then 1 else 0)
  /\ occupied next = countRunners [on1 state; on2 state; on3 state] (fun i => i + 1 <? 3) + 1.
Proof.
  cbv zeta.
  assert (H : 1 <= 1 <= 3) by lia.
  split; [exact H |].
  destruct (C1_advanceBases_moves_runners (mkRunners true false true) 1 H)
    as (_ & _ & Hs & Ho & _).
  split; [exact Hs | exact Ho].
Defined.

(** C10. Runner conservation: for every gain [n >= 1], the runs scored plus
    the bases occupied afterwards equal the bases occupied before plus one
    (the batter). *)
Theorem C10_advanceBases_conserves_runners (state : Runners) (n : Z) :
  1 <= n ->
  snd (advanceBases state n) + occupied (fst (advanceBases state n))
  = occupied state + 1.
Proof.
  intros Hn.
  assert (Hc : 1 <= n <= 3 \/ 4 <= n) by lia.
  destruct Hc as [Hs | Hh].
  - apply small_gain in Hs.
    destruct Hs as [-> | [-> | ->]]; runners_cases state; reflexivity.
  - rewrite (advanceBases_homerun state n Hh). simpl fst; simpl snd.
    change (occupied noRunners) with 0. lia.
Qed.

Lemma C10_advanceBases_conserves_runners_witness :
  snd (advanceBases (mkRunners true true false) 2)
  + occupied (fst (advanceBases (mkRunners true true false) 2))
  = occupied (mkRunners true true false) + 1.
Proof.
  apply (C10_advanceBases_conserves_runners (mkRunners true true false) 2). lia.
Defined.

(** ** Swing classification *)

Lemma settleResult_result (r : HitResult) (s : Session) :
  result (settleResult r s) = Some r.
Proof.
  destruct r as [reason | d | k d ev la di]; unfold settleResult, seq_update.
  - unfold setStrikes, setResult; simpl.
    destruct (3 <=? strikes s + 1); reflexivity.
  - reflexivity.
  - destruct k; unfold setRunners, setRuns, setStrikes, setResult; simpl;
      try destruct (advanceBases (runners s) _); reflexivity.
Qed.

Lemma doSwing_settles (env : Platform) (c : Screen) (r : HitResult) :
  inPlay (game c) = true ->
  classify env (JS.Math_abs (progress (game c) - CONTACT_PROGRESS)) = Some r ->
  result (game (doSwing env c)) = Some r /\ inPlay (game (doSwing env c)) = false.
Proof.
  intros Hplay Hr. unfold doSwing. rewrite Hplay. simpl negb. cbv iota.
  cbv zeta. change (game (setSwingAt _ c)) with (game c).
  rewrite Hr. unfold update, seq_update. simpl game.
  split; [apply settleResult_result | reflexivity].
Qed.

Lemma doSwing_inconclusive (env : Platform) (c : Screen) :
  inPlay (game c) = true ->
  classify env (JS.Math_abs (progress (game c) - CONTACT_PROGRESS)) = None ->
  doSwing env c = setSwingAt (Some (progress (game c))) c.
Proof.
  intros Hplay Hr. unfold doSwing. rewrite Hplay. simpl negb. cbv iota.
  cbv zeta. change (game (setSwingAt _ c)) with (game c).
  rewrite Hr. reflexivity.
Qed.

(** C2. A swing sampled while the pitch is in flight is classified on
    [delta = |progress - CONTACT_PROGRESS|] by the first test that succeeds:
    [delta <= PERFECT] settles a home run; else [delta <= GOOD] a double;
    else [delta <= OKAY] a double when [delta < OKAY * 0.6] and a single
    otherwise, a single at [delta = OKAY * 0.6] itself; else
    [delta <= FOUL] a foul; each of these ends the play.  Otherwise nothing
    is settled: the state cells are unchanged, the pitch stays in flight and
    only the swing's progress is recorded. *)
Theorem C2_doSwing_decision_ladder (env : Platform) (c : Screen) :
  inPlay (game c) = true ->
  let delta := JS.Math_abs (progress (game c) - CONTACT_PROGRESS) in
  let c' := doSwing env c in
  (leb delta PERFECT = true ->
   hitKind (result (game c')) = Some homerun /\ inPlay (game c') = false)
  /\ (leb delta PERFECT = false -> leb delta GOOD = true ->
      hitKind (result (game c')) = Some double /\ inPlay (game c') = false)
  /\ (leb delta PERFECT = false -> leb delta GOOD = false -> leb delta OKAY = true ->
      hitKind (result (game c'))
      = Some (if ltb delta (OKAY * 0.6) then double else single)
      /\ inPlay (game c') = false)
  /\ (leb delta PERFECT = false -> leb delta GOOD = false -> leb delta OKAY = false ->
      leb delta FOUL = true ->
      result (game c') = Some (Foul delta) /\ inPlay (game c') = false)
  /\ (leb delta PERFECT = false -> leb delta GOOD = false -> leb delta OKAY = false ->
      leb delta FOUL = false ->
      game c' = game c /\ inPlay (game c') = true
      /\ swingAtRef c' = Some (progress (game c)))
  /\ hitKind (classify env (OKAY * 0.6)) = Some single.
Proof.
  intros Hplay delta c'.
  repeat match goal with |- _ /\ _ => split end.
  - intros H1.
    destruct (doSwing_settles env c _ Hplay
                ltac:(unfold classify; fold delta; rewrite H1; reflexivity)) as [Hr Hp].
    subst c'. rewrite Hr. split; [reflexivity | exact Hp].
  - intros H1 H2.
    destruct (doSwing_settles env c _ Hplay
                ltac:(unfold classify; fold delta; rewrite H1, H2; reflexivity)) as [Hr Hp].
    subst c'. rewrite Hr. split; [reflexivity | exact Hp].
  - intros H1 H2 H3.
    destruct (doSwing_settles env c _ Hplay
                ltac:(unfold classify; fold delta; rewrite H1, H2, H3; reflexivity))
      as [Hr Hp].
    subst c'. rewrite Hr. split; [reflexivity | exact Hp].
  - intros H1 H2 H3 H4.
    destruct (doSwing_settles env c _ Hplay
                ltac:(unfold classify; fold delta; rewrite H1, H2, H3, H4; reflexivity))
      as [Hr Hp].
    subst c'. rewrite Hr. split; [reflexivity | exact Hp].
  - intros H1 H2 H3 H4.
    assert (Hn : classify env delta = None)
      by (unfold classify; rewrite H1, H2, H3, H4; reflexivity).
    subst c'. rewrite (doSwing_inconclusive env c Hplay Hn).
    repeat split. exact Hplay.
  - destruct env as [u1 u2 sin]. vm_compute. reflexivity.
Qed.

Lemma C2_doSwing_decision_ladder_witness :
  inPlay (game atContact) = true
  /\ hitKind (result (game (doSwing sampleEnv atContact))) = Some homerun
  /\ inPlay (game (doSwing sampleEnv atContact)) = false.
Proof.
  assert (Hplay : inPlay (game atContact) = true) by reflexivity.
  split; [exact Hplay |].
  destruct (C2_doSwing_decision_ladder sampleEnv atContact Hplay) as [Hperfect _].
  apply Hperfect. vm_compute. reflexivity.
Defined.

(** ** End of flight *)

(** Reads the cells of a screen built by the reference setters. *)
Ltac flight_cells :=
  cbn [JS.truthy negb update cancelRaf setRaf game swingAtRef setInPlay result inPlay].

Lemma flightEnd_no_swing (c : Screen) :
  swingAtRef c = None ->
  result (game (flightEnd c)) = Some (Strike miss)
  /\ inPlay (game (flightEnd c)) = false.
Proof.
  intros Hs. unfold flightEnd. rewrite Hs. flight_cells.
  split; [apply settleResult_result | reflexivity].
Qed.

Lemma flightEnd_recorded_swing (c : Screen) (swingAt : float) :
  swingAtRef c = Some swingAt ->
  JS.truthy (Some swingAt) = true ->
  ltb FOUL (JS.Math_abs (swingAt - CONTACT_PROGRESS)) = true ->
  result (game (flightEnd c))
  = Some (Strike (if ltb swingAt CONTACT_PROGRESS then early else late))
  /\ inPlay (game (flightEnd c)) = false.
Proof.
  intros Hs Ht Hd. unfold flightEnd. rewrite Hs, Ht. cbn [negb]. rewrite Hd. flight_cells.
  split; [apply settleResult_result | reflexivity].
Qed.

(** A swing recorded at progress 0 is falsy in [!swingAtRef.current], so the
    end of the flight takes it for no swing at all. *)
Lemma flightEnd_swing_at_zero (c : Screen) :
  swingAtRef c = Some 0%float ->
  result (game (flightEnd c)) = Some (Strike miss).
Proof.
  intros Hs. unfold flightEnd. rewrite Hs.
  change (JS.truthy (Some 0%float)) with false. flight_cells.
  apply settleResult_result.
Qed.

(** C3 (the code departs from it). A pitch is started, the batter swings
    before the first animation frame, so at progress 0, and the flight runs
    to progress 1.  The swing is recorded with
    [|0 - CONTACT_PROGRESS| > FOUL] and [0 < CONTACT_PROGRESS], yet the end
    of the flight settles [strike{miss}], not [strike{early}]. *)
Theorem C3_swing_at_release_is_settled_as_miss :
  let swung := run [Pitch 1000; Swing sampleEnv] initialScreen in
  let ended := run [Pitch 1000; Swing sampleEnv; Frame 1350; Frame 1700] initialScreen in
  swingAtRef swung = Some 0%float
  /\ inPlay (game swung) = true
  /\ ltb FOUL (JS.Math_abs (0 - CONTACT_PROGRESS)) = true
  /\ ltb 0 CONTACT_PROGRESS = true
  /\ progress (game ended) = 1%float
  /\ swingAtRef ended = Some 0%float
  /\ result (game ended) = Some (Strike miss).
Proof. vm_compute. repeat split. Qed.

(** ** Settling a result *)

Lemma runnersNow_occupied (r : Runners) :
  (if on1 r then 1 else 0) + (if on2 r then 1 else 0) + (if on3 r then 1 else 0)
  = occupied r.
Proof. runners_cases r; reflexivity. Qed.

(** C4. A foul adds a strike only below two strikes and otherwise leaves the
    count at 2, so the count after a foul never exceeds 2 and no out is
    recorded; it raises the pitch limit by exactly one; with two strikes the
    count stays 2 while the limit grows by 1. *)
Theorem C4_foul_clamps_strikes_and_extends_limit (s : Session) (delta : float) :
  let s' := settleResult (Foul delta) s in
  s' = mkSession (inPlay s) (progress s) (Some (Foul delta))
         (if strikes s <? 2 then strikes s + 1 else 2)
         (outs s) (runs s) (pitches s) (maxPitches s + 1) (gameOver s) (runners s)
  /\ (strikes s < 2 -> strikes s' = strikes s + 1)
  /\ (2 <= strikes s -> strikes s' = 2)
  /\ strikes s' <= 2
  /\ outs s' = outs s
  /\ maxPitches s' = maxPitches s + 1
  /\ (strikes s = 2 -> strikes s' = 2 /\ maxPitches s' = maxPitches s + 1).
Proof.
  cbv zeta.
  assert (E : settleResult (Foul delta) s
              = mkSession (inPlay s) (progress s) (Some (Foul delta))
                  (if strikes s <? 2 then strikes s + 1 else 2)
                  (outs s) (runs s) (pitches s) (maxPitches s + 1) (gameOver s)
                  (runners s)) by reflexivity.
  rewrite E. simpl.
  destruct (Z.ltb_spec (strikes s) 2); repeat split; lia.
Qed.

(** The strike count after a strike, and the outs. *)
Lemma settle_strike (s : Session) (r : StrikeReason) :
  settleResult (Strike r) s
  = mkSession (inPlay s) (progress s) (Some (Strike r))
      (if 3 <=? strikes s + 1 then 0 else strikes s + 1)
      (if 3 <=? strikes s + 1 then outs s + 1 else outs s)
      (runs s) (pitches s) (maxPitches s) (gameOver s) (runners s).
Proof.
  unfold settleResult, seq_update, setStrikes, setResult. simpl.
  destruct (3 <=? strikes s + 1); reflexivity.
Qed.

(** C5. A strike adds one to the strike count; when the count reaches 3 an
    out is recorded and the count returns to 0; runs and runners are
    untouched.  From a fresh count three strikes in a row give exactly one
    out and a count of 0, and the fourth strike makes the count 1. *)
Theorem C5_strike_counts_and_strikeout (s : Session) (r r1 r2 r3 r4 : StrikeReason) :
  let s' := settleResult (Strike r) s in
  (strikes s + 1 < 3 -> strikes s' = strikes s + 1 /\ outs s' = outs s)
  /\ (3 <= strikes s + 1 -> strikes s' = 0 /\ outs s' = outs s + 1)
  /\ runs s' = runs s
  /\ runners s' = runners s
  /\ (strikes s = 0 ->
      let s3 := settleResult (Strike r3)
                  (settleResult (Strike r2) (settleResult (Strike r1) s)) in
      strikes s3 = 0 /\ outs s3 = outs s + 1
      /\ strikes (settleResult (Strike r4) s3) = 1
      /\ outs (settleResult (Strike r4) s3) = outs s + 1).
Proof.
  cbv zeta. rewrite !settle_strike. simpl.
  split; [| split; [| split; [| split]]].
  - intros H. destruct (Z.leb_spec 3 (strikes s + 1)); [lia | split; reflexivity].
  - intros H. destruct (Z.leb_spec 3 (strikes s + 1)); [split; reflexivity | lia].
  - reflexivity.
  - reflexivity.
  - intros H0. rewrite H0. simpl. repeat split.
Qed.

(** C6. A home run adds 5 plus the number of occupied bases to the runs,
    clears the three bases and resets the strike count; with the bases
    loaded the runs grow by 8. *)
Theorem C6_homerun_scores_five_plus_runners
        (s : Session) (delta exitVelo launchDeg distance : float) :
  let r := Hit homerun delta exitVelo launchDeg distance in
  let s' := settleResult r s in
  s' = mkSession (inPlay s) (progress s) (Some r) 0 (outs s)
         (runs s + 5 + occupied (runners s))
         (pitches s) (maxPitches s) (gameOver s) noRunners
  /\ runs s' = runs s + 5 + occupied (runners s)
  /\ runners s' = noRunners
  /\ strikes s' = 0
  /\ (runners s = mkRunners true true true -> runs s' = runs s + 8).
Proof.
  cbv zeta.
  assert (E : settleResult (Hit homerun delta exitVelo launchDeg distance) s
              = mkSession (inPlay s) (progress s)
                  (Some (Hit homerun delta exitVelo launchDeg distance)) 0 (outs s)
                  (runs s + 5 + occupied (runners s))
                  (pitches s) (maxPitches s) (gameOver s) noRunners).
  { unfold settleResult, seq_update, setRuns, setRunners, setStrikes, setResult, skip.
    simpl. rewrite runnersNow_occupied. reflexivity. }
  rewrite E. simpl. repeat split.
  intros Hr. rewrite Hr. change (occupied (mkRunners true true true)) with 3. lia.
Qed.

(** ** Three outs *)

(** C7. With three outs the effect on [outs] sets outs and strikes to 0 and
    clears the bases; every other cell, runs and the pitch count among
    them, keeps its value.  The same holds of the whole pass of effects that
    follows a render in which [outs] changed to three. *)
Theorem C7_three_outs_resets_inning_only (s before : Session) :
  3 <= outs s ->
  inningEffect s
  = mkSession (inPlay s) (progress s) (result s) 0 0 (runs s)
      (pitches s) (maxPitches s) (gameOver s) noRunners
  /\ (outs before <> outs s ->
      let s' := effects before s in
      outs s' = 0 /\ strikes s' = 0 /\ runners s' = noRunners
      /\ runs s' = runs s /\ pitches s' = pitches s
      /\ maxPitches s' = maxPitches s /\ result s' = result s
      /\ progress s' = progress s).
Proof.
  intros H.
  assert (E : inningEffect s
              = mkSession (inPlay s) (progress s) (result s) 0 0 (runs s)
                  (pitches s) (maxPitches s) (gameOver s) noRunners).
  { unfold inningEffect. destruct (Z.leb_spec 3 (outs s)); [reflexivity | lia]. }
  split; [exact E |].
  intros Hchg. unfold effects.
  destruct (Z.eqb_spec (outs before) (outs s)) as [Heq | _]; [contradiction |].
  rewrite E. cbn [pitches]. unfold gameOverEffect. cbn [pitches maxPitches].
  destruct (pitches before =? pitches s); [repeat split |].
  destruct (maxPitches s <=? pitches s); repeat split.
Qed.

Lemma C7_three_outs_resets_inning_only_witness :
  outs thirdOut = 3
  /\ inningEffect thirdOut
     = mkSession true 1 (Some (Strike late)) 0 0 4 3 5 false noRunners.
Proof.
  split; [reflexivity |].
  assert (H : 3 <= outs thirdOut) by (vm_compute; discriminate).
  destruct (C7_three_outs_resets_inning_only thirdOut thirdOut H) as [E _].
  rewrite E. reflexivity.
Defined.

(** ** Reset *)

Lemma resetAll_cells (s : Session) :
  resetAll s = mkSession false 0 None 0 0 0 0 (maxPitches s) false noRunners.
Proof. reflexivity. Qed.



(** ** Velocity and flight duration *)

Lemma sliderSettings_complete (z : Z) : 70 <= z <= 100 -> In z sliderSettings.
Proof.
  intros H. unfold sliderSettings. apply in_map_iff.
  exists (Z.to_nat (z - 70)). split; [lia |].
  apply in_seq. lia.
Qed.

Lemma decreasingOn_slider : decreasingOn sliderSettings = true.
Proof. vm_compute. reflexivity. Qed.

Lemma boundedOn_slider : boundedOn 400 2000 sliderSettings = true.
Proof. vm_compute. reflexivity. Qed.

(** Between the slider's settings the rounding of binary64 shows: these two
    neighbouring doubles just above 80 have the same duration. *)
Lemma plateTime_tie_between_settings :
  let v1 := next_up 80 in
  let v2 := next_up (next_up 80) in
  ltb v1 v2 = true /\ plateTimeMsFromMph v1 = plateTimeMsFromMph v2.
Proof. vm_compute. split; reflexivity. Qed.

(** C9 as stated fails at the minimum velocity: at 70 the flight lasts
    1000 ms, which is 1000 ms away from 2000 ms. *)
Lemma C9_duration_at_minimum_velocity_is_1000 :
  plateTimeMsFromMph (mphSetting 70) = 1000%float
  /\ abs (plateTimeMsFromMph (mphSetting 70) - 2000) = 1000%float
  /\ within 500 (plateTimeMsFromMph (mphSetting 70)) 2000 = false.
Proof. vm_compute. repeat split. Qed.

(** C9 (amended). Over the velocities that can be configured, the integers
    70 to 100, the flight duration is strictly decreasing and bounded: it
    never falls below 400 ms, the duration at the maximum 100, and never
    exceeds 2000 ms. *)
Theorem C9_plateTime_decreasing_and_bounded (z1 z2 : Z) :
  70 <= z1 -> z1 < z2 -> z2 <= 100 ->
  ltb (plateTimeMsFromMph (mphSetting z2)) (plateTimeMsFromMph (mphSetting z1)) = true
  /\ leb 400 (plateTimeMsFromMph (mphSetting z1)) = true
  /\ leb (plateTimeMsFromMph (mphSetting z1)) 2000 = true
  /\ leb 400 (plateTimeMsFromMph (mphSetting z2)) = true
  /\ leb (plateTimeMsFromMph (mphSetting z2)) 2000 = true
  /\ plateTimeMsFromMph (mphSetting 100) = 400%float.
Proof.
  intros Hlo Hlt Hhi.
  assert (I1 : In z1 sliderSettings) by (apply sliderSettings_complete; lia).
  assert (I2 : In z2 sliderSettings) by (apply sliderSettings_complete; lia).
  pose proof decreasingOn_slider as D. unfold decreasingOn in D.
  rewrite forallb_forall in D. specialize (D z1 I1).
  rewrite forallb_forall in D. specialize (D z2 I2).
  apply Z.ltb_lt in Hlt. rewrite Hlt in D. simpl in D.
  pose proof boundedOn_slider as B. unfold boundedOn in B.
  rewrite forallb_forall in B.
  pose proof (B z1 I1) as B1. apply andb_true_iff in B1.
  pose proof (B z2 I2) as B2. apply andb_true_iff in B2.
  split; [exact D |].
  split; [exact (proj1 B1) |].
  split; [exact (proj2 B1) |].
  split; [exact (proj1 B2) |].
  split; [exact (proj2 B2) |].
  reflexivity.
Qed.

Lemma C9_plateTime_decreasing_and_bounded_witness :
  ltb (plateTimeMsFromMph (mphSetting 100)) (plateTimeMsFromMph (mphSetting 85)) = true
  /\ plateTimeMsFromMph (mphSetting 85) = 700%float.
Proof.
  split; [| reflexivity].
  apply (C9_plateTime_decreasing_and_bounded 85 100); lia.
Defined.

(** * Further properties *)

(** ** The order of binary64 values

    The comparisons of primitive floats are specified by [SFcompare] on
    their decoded form; these lemmas are the order facts used below. *)

Module FloatOrder.

Import SpecFloat FloatOps.

Lemma SFcompare_antisym (a b : spec_float) :
  SFcompare b a = option_map CompOpp (SFcompare a b).
Proof.
  destruct a as [sa | sa | | sa ma ea], b as [sb | sb | | sb mb eb];
    try destruct sa; try destruct sb; try reflexivity; simpl.
  - rewrite (Z.compare_antisym ea eb).
    destruct (ea ?= eb)%Z; simpl; try reflexivity.
    f_equal. f_equal. exact (ZC4 mb ma).
  - rewrite (Z.compare_antisym ea eb).
    destruct (ea ?= eb)%Z; simpl; try reflexivity.
    f_equal. exact (ZC4 mb ma).
Qed.

Lemma SFcompare_total (a b : spec_float) :
  SFcompare a a <> None -> SFcompare b b <> None -> SFcompare a b <> None.
Proof.
  destruct a as [sa | sa | | sa ma ea], b as [sb | sb | | sb mb eb];
    simpl; congruence.
Qed.

Lemma SFcompare_self (a : spec_float) :
  SFcompare a a <> None -> SFcompare a a = Some Eq.
Proof.
  intros H. pose proof (SFcompare_antisym a a) as E.
  destruct (SFcompare a a) as [[| |] |]; simpl in E; congruence.
Qed.

Lemma is_nan_false (x : float) :
  is_nan x = false -> SFcompare (Prim2SF x) (Prim2SF x) = Some Eq.
Proof.
  unfold is_nan. rewrite FloatAxioms.eqb_spec. unfold SFeqb.
  destruct (SFcompare (Prim2SF x) (Prim2SF x)) as [[| |] |]; simpl; congruence.
Qed.

Lemma is_nan_true (x : float) :
  is_nan x = true ->
  forall y, SFcompare (Prim2SF x) (Prim2SF y) = None
            /\ SFcompare (Prim2SF y) (Prim2SF x) = None.
Proof.
  unfold is_nan. rewrite FloatAxioms.eqb_spec. unfold SFeqb.
  intros H y.
  assert (N : SFcompare (Prim2SF x) (Prim2SF x) = None).
  { pose proof (SFcompare_self (Prim2SF x)) as S.
    destruct (SFcompare (Prim2SF x) (Prim2SF x)) as [c |]; [| reflexivity].
    assert (E : Some c = Some Eq) by (apply S; congruence).
    injection E as ->. discriminate. }
  destruct (Prim2SF x) as [s | s | | s m e]; simpl in N.
  - discriminate.
  - destruct s; discriminate.
  - split; [reflexivity | destruct (Prim2SF y); reflexivity].
  - destruct s; destruct (e ?= e)%Z; discriminate.
Qed.

Lemma ltb_leb (x y : float) : ltb x y = true -> leb x y = true.
Proof.
  rewrite FloatAxioms.ltb_spec, FloatAxioms.leb_spec. unfold SFltb, SFleb.
  destruct (SFcompare (Prim2SF x) (Prim2SF y)) as [[| |] |]; congruence.
Qed.

Lemma not_ltb_leb (x y : float) :
  is_nan x = false -> is_nan y = false -> ltb x y = false -> leb y x = true.
Proof.
  intros Hx Hy. apply is_nan_false in Hx. apply is_nan_false in Hy.
  rewrite FloatAxioms.ltb_spec, FloatAxioms.leb_spec. unfold SFltb, SFleb.
  rewrite (SFcompare_antisym (Prim2SF x) (Prim2SF y)).
  pose proof (SFcompare_total (Prim2SF x) (Prim2SF y)) as T.
  destruct (SFcompare (Prim2SF x) (Prim2SF y)) as [[| |] |]; simpl; try congruence.
  intros _. exfalso. apply T; congruence.
Qed.

Lemma leb_refl (x : float) : is_nan x = false -> leb x x = true.
Proof.
  intros Hx. apply is_nan_false in Hx.
  rewrite FloatAxioms.leb_spec. unfold SFleb. rewrite Hx. reflexivity.
Qed.

Lemma ltb_asym (x y : float) : ltb x y = true -> ltb y x = false.
Proof.
  rewrite !FloatAxioms.ltb_spec. unfold SFltb.
  rewrite (SFcompare_antisym (Prim2SF x) (Prim2SF y)).
  destruct (SFcompare (Prim2SF x) (Prim2SF y)) as [[| |] |]; simpl; congruence.
Qed.

Lemma leb_not_nan (x y : float) : leb x y = true -> is_nan x = false /\ is_nan y = false.
Proof.
  intros H.
  split.
  - destruct (is_nan x) eqn:E; [| reflexivity].
    destruct (is_nan_true x E y) as [N _].
    rewrite FloatAxioms.leb_spec in H. unfold SFleb in H. rewrite N in H. discriminate.
  - destruct (is_nan y) eqn:E; [| reflexivity].
    destruct (is_nan_true y E x) as [_ N].
    rewrite FloatAxioms.leb_spec in H. unfold SFleb in H. rewrite N in H. discriminate.
Qed.

Lemma SFcompare_rank (x y : spec_float) :
  SFcompare x y
  = match rank x, rank y with
    | Some p, Some q => Some (lexcmp p q)
    | _, _ => None
    end.
Proof.
  destruct x as [sx | sx | | sx mx ex], y as [sy | sy | | sy my ey];
    try destruct sx; try destruct sy; try reflexivity.
  all: simpl.
  all: try rewrite Z.compare_opp; try rewrite (Z.compare_antisym ex ey).
  all: destruct (ex ?= ey); reflexivity.
Qed.

Lemma lexcmp_le (p q : Z * Z * Z) : lexcmp p q <> Gt <-> lexle p q.
Proof.
  destruct p as [[a1 b1] c1], q as [[a2 b2] c2]. unfold lexcmp, lexle.
  destruct (Z.compare_spec a1 a2); [| split; [lia | congruence] | split; [congruence | lia]].
  destruct (Z.compare_spec b1 b2); [| split; [lia | congruence] | split; [congruence | lia]].
  destruct (Z.compare_spec c1 c2); split; try lia; congruence.
Qed.

Lemma leb_rank (x y : float) :
  leb x y = true <->
  exists p q, rank (Prim2SF x) = Some p /\ rank (Prim2SF y) = Some q /\ lexle p q.
Proof.
  rewrite FloatAxioms.leb_spec. unfold SFleb. rewrite SFcompare_rank.
  destruct (rank (Prim2SF x)) as [p |], (rank (Prim2SF y)) as [q |].
  - split.
    + intros H. exists p, q. repeat split. apply lexcmp_le.
      destruct (lexcmp p q); congruence.
    + intros (p' & q' & Ep & Eq & L). injection Ep as <-. injection Eq as <-.
      apply lexcmp_le in L. destruct (lexcmp p q); congruence.
  - split; [discriminate | intros (p' & q' & _ & E & _); discriminate].
  - split; [discriminate | intros (p' & q' & E & _); discriminate].
  - split; [discriminate | intros (p' & q' & E & _); discriminate].
Qed.

Lemma leb_trans (x y z : float) : leb x y = true -> leb y z = true -> leb x z = true.
Proof.
  rewrite !leb_rank.
  intros (p & q & Ep & Eq & L1) (q' & r & Eq' & Er & L2).
  rewrite Eq in Eq'. injection Eq' as <-.
  exists p, r. repeat split; auto.
  destruct p as [[a1 b1] c1], q as [[a2 b2] c2], r as [[a3 b3] c3].
  unfold lexle in *. lia.
Qed.

Lemma leb_not_ltb (x y : float) : leb x y = true -> ltb y x = false.
Proof.
  rewrite FloatAxioms.leb_spec, FloatAxioms.ltb_spec. unfold SFleb, SFltb.
  rewrite (SFcompare_antisym (Prim2SF x) (Prim2SF y)).
  destruct (SFcompare (Prim2SF x) (Prim2SF y)) as [[| |] |]; simpl; congruence.
Qed.

Lemma nan_decoded (x : float) : is_nan x = true -> Prim2SF x = S754_nan.
Proof.
  intros H. destruct (is_nan_true x H x) as [N _].
  destruct (Prim2SF x) as [s | s | | s m e]; simpl in N.
  - discriminate.
  - destruct s; discriminate.
  - reflexivity.
  - destruct s; destruct (e ?= e)%Z; discriminate.
Qed.

(** The two zeros are the only values equal to zero. *)
Lemma is_zero_cases (x : float) :
  is_zero x = true -> x = 0%float \/ x = (-0)%float.
Proof.
  unfold is_zero. rewrite FloatAxioms.eqb_spec. unfold SFeqb.
  change (Prim2SF zero) with (S754_zero false).
  intros H. rewrite <- (FloatAxioms.SF2Prim_Prim2SF x).
  destruct (Prim2SF x) as [s | s | | s m e]; simpl in H; try discriminate.
  - destruct s; [right | left]; reflexivity.
  - destruct s; discriminate.
  - destruct s; discriminate.
Qed.

(** Whatever is compared with the absolute value of a difference with a NaN
    operand, [<=] fails. *)
Lemma leb_abs_sub_nan (x y z : float) :
  is_nan x = true -> leb (abs (x - y)) z = false.
Proof.
  intros H. apply nan_decoded in H.
  rewrite FloatAxioms.leb_spec, FloatAxioms.abs_spec, FloatAxioms.sub_spec. rewrite H.
  reflexivity.
Qed.

End FloatOrder.

(** ** [Math.min], [Math.max] and [clamp] *)

Lemma nan_is_nan : is_nan nan = true.
Proof. reflexivity. Qed.

Lemma Math_min_nan (a b : float) :
  is_nan a || is_nan b = true -> JS.Math_min a b = nan.
Proof. intros H. unfold JS.Math_min. rewrite H. reflexivity. Qed.

Lemma Math_max_nan (a b : float) :
  is_nan a || is_nan b = true -> JS.Math_max a b = nan.
Proof. intros H. unfold JS.Math_max. rewrite H. reflexivity. Qed.

Lemma Math_min_spec (a b : float) :
  is_nan a = false -> is_nan b = false ->
  (JS.Math_min a b = a \/ JS.Math_min a b = b)
  /\ leb (JS.Math_min a b) a = true /\ leb (JS.Math_min a b) b = true.
Proof.
  intros Ha Hb. unfold JS.Math_min. rewrite Ha, Hb. cbn [orb].
  destruct (ltb a b) eqn:Hab.
  - repeat split; auto using FloatOrder.leb_refl, FloatOrder.ltb_leb.
  - destruct (ltb b a) eqn:Hba.
    + repeat split; auto using FloatOrder.leb_refl, FloatOrder.ltb_leb.
    + destruct (is_zero a && get_sign a);
        repeat split; auto using FloatOrder.leb_refl, FloatOrder.not_ltb_leb.
Qed.

Lemma Math_max_spec (a b : float) :
  is_nan a = false -> is_nan b = false ->
  (JS.Math_max a b = a \/ JS.Math_max a b = b)
  /\ leb a (JS.Math_max a b) = true /\ leb b (JS.Math_max a b) = true.
Proof.
  intros Ha Hb. unfold JS.Math_max. rewrite Ha, Hb. cbn [orb].
  destruct (ltb a b) eqn:Hab.
  - repeat split; auto using FloatOrder.leb_refl, FloatOrder.ltb_leb.
  - destruct (ltb b a) eqn:Hba.
    + repeat split; auto using FloatOrder.leb_refl, FloatOrder.ltb_leb.
    + destruct (is_zero a && get_sign a);
        repeat split; auto using FloatOrder.leb_refl, FloatOrder.not_ltb_leb.
Qed.

Lemma clamp_nan (v lo hi : float) : is_nan v = true -> clamp v lo hi = nan.
Proof.
  intros Hv. unfold clamp.
  rewrite (Math_min_nan hi v) by (rewrite Hv; apply orb_true_r).
  apply Math_max_nan. rewrite nan_is_nan. apply orb_true_r.
Qed.

(** X1. [clamp] with bounds in order: a value that is a number is brought
    into the closed range, and the result is the value itself or one of the
    bounds; a value strictly inside the range is returned as it is; NaN is
    returned as NaN. *)
Theorem X1_clamp_range (v lo hi : float) :
  leb lo hi = true ->
  (is_nan v = false ->
   leb lo (clamp v lo hi) = true /\ leb (clamp v lo hi) hi = true
   /\ (clamp v lo hi = v \/ clamp v lo hi = lo \/ clamp v lo hi = hi))
  /\ (ltb lo v = true -> ltb v hi = true -> clamp v lo hi = v)
  /\ (is_nan v = true -> clamp v lo hi = nan).
Proof.
  intros Hb. destruct (FloatOrder.leb_not_nan lo hi Hb) as [Hlo Hhi].
  split; [| split].
  - intros Hv. unfold clamp.
    destruct (Math_min_spec hi v Hhi Hv) as (Hm & Hmh & _).
    assert (Nm : is_nan (JS.Math_min hi v) = false)
      by (destruct Hm as [-> | ->]; assumption).
    destruct (Math_max_spec lo (JS.Math_min hi v) Hlo Nm) as (Hr & Hlr & _).
    split; [exact Hlr |].
    split.
    + destruct Hr as [-> | ->]; assumption.
    + destruct Hr as [-> | ->]; [auto |].
      destruct Hm as [-> | ->]; auto.
  - intros Hlv Hvh. unfold clamp.
    destruct (FloatOrder.leb_not_nan _ _ (FloatOrder.ltb_leb _ _ Hlv)) as [_ Hv].
    unfold JS.Math_min. rewrite Hhi, Hv. cbn [orb].
    rewrite (FloatOrder.ltb_asym v hi Hvh), Hvh.
    unfold JS.Math_max. rewrite Hlo, Hv. cbn [orb]. rewrite Hlv. reflexivity.
  - apply clamp_nan.
Qed.

Lemma X1_clamp_range_witness :
  leb 0 (clamp 1.5 0 1) = true /\ leb (clamp 1.5 0 1) 1 = true
  /\ clamp 0.25 0 1 = 0.25%float.
Proof.
  assert (H : leb 0 1 = true) by reflexivity.
  destruct (X1_clamp_range 1.5 0 1 H) as (Hin & _ & _).
  destruct (Hin ltac:(reflexivity)) as (H1 & H2 & _).
  destruct (X1_clamp_range 0.25 0 1 H) as (_ & Hid & _).
  split; [exact H1 |]. split; [exact H2 |].
  apply Hid; reflexivity.
Defined.

(** X2. The distance estimate is never negative: whatever the platform's
    sine returns, [estimateDistance] is at least 0 or is NaN. *)
Theorem X2_estimateDistance_not_negative
        (Math_sin : float -> float) (exitVelo launchDeg : float) :
  is_nan (estimateDistance Math_sin exitVelo launchDeg) = true
  \/ leb 0 (estimateDistance Math_sin exitVelo launchDeg) = true.
Proof.
  unfold estimateDistance. cbv zeta.
  set (y := (_ * 0.82)%float).
  destruct (is_nan y) eqn:Hy.
  - left. rewrite (Math_max_nan 0 y) by (rewrite Hy; apply orb_true_r).
    apply nan_is_nan.
  - right. apply (Math_max_spec 0 y); [reflexivity | exact Hy].
Qed.

(** ** Settling a result: every branch *)

Lemma advanceBases_scored_nonneg (state : Runners) (n : Z) :
  1 <= n <= 3 -> 0 <= snd (advanceBases state n).
Proof.
  intros Hn. apply small_gain in Hn.
  destruct Hn as [-> | [-> | ->]]; runners_cases state; vm_compute; discriminate.
Qed.

Lemma advanceBases_balance (state : Runners) (n : Z) :
  1 <= n <= 3 ->
  snd (advanceBases state n) + occupied (fst (advanceBases state n))
  = occupied state + 1.
Proof.
  intros Hn. apply small_gain in Hn.
  destruct Hn as [-> | [-> | ->]]; runners_cases state; reflexivity.
Qed.

Lemma basesGained_range (k : HitKind) : 1 <= basesGained k <= 3.
Proof. destruct k; simpl; lia. Qed.

Lemma settle_foul (s : Session) (d : float) :
  settleResult (Foul d) s
  = mkSession (inPlay s) (progress s) (Some (Foul d))
      (if strikes s <? 2 then strikes s + 1 else 2)
      (outs s) (runs s) (pitches s) (maxPitches s + 1) (gameOver s) (runners s).
Proof. reflexivity. Qed.

Lemma settle_homerun (s : Session) (d ev la di : float) :
  settleResult (Hit homerun d ev la di) s
  = mkSession (inPlay s) (progress s) (Some (Hit homerun d ev la di)) 0 (outs s)
      (runs s + 5 + occupied (runners s))
      (pitches s) (maxPitches s) (gameOver s) noRunners.
Proof.
  unfold settleResult, seq_update, setRuns, setRunners, setStrikes, setResult, skip.
  simpl. rewrite runnersNow_occupied. reflexivity.
Qed.

Lemma settle_base_hit (s : Session) (k : HitKind) (d ev la di : float) :
  k <> homerun ->
  settleResult (Hit k d ev la di) s
  = mkSession (inPlay s) (progress s) (Some (Hit k d ev la di)) 0 (outs s)
      (runs s + 1 + snd (advanceBases (runners s) (basesGained k)))
      (pitches s) (maxPitches s) (gameOver s)
      (fst (advanceBases (runners s) (basesGained k))).
Proof.
  intros Hk.
  destruct k; try congruence;
    unfold settleResult, seq_update, setRuns, setRunners, setStrikes, setResult, skip;
    simpl;
    match goal with
    | |- context [advanceBases ?r ?n] => destruct (advanceBases r n) as [next scored]
    end; reflexivity.
Qed.

Lemma occupied_range (r : Runners) : 0 <= occupied r <= 3.
Proof. runners_cases r; vm_compute; split; discriminate. Qed.

Lemma settleResult_advances (r : HitResult) (s : Session) :
  advances s (settleResult r s)
  /\ inPlay (settleResult r s) = inPlay s
  /\ progress (settleResult r s) = progress s.
Proof.
  unfold advances.
  destruct r as [reason | d | k d ev la di].
  - rewrite settle_strike. simpl.
    destruct (Z.leb_spec 3 (strikes s + 1)); repeat split; lia.
  - rewrite settle_foul. simpl.
    destruct (Z.ltb_spec (strikes s) 2); repeat split; lia.
  - destruct k.
    1-3: rewrite settle_base_hit by discriminate; simpl;
      match goal with
      | |- context [advanceBases ?r ?n] =>
          pose proof (advanceBases_scored_nonneg r n ltac:(lia))
      end; repeat split; lia.
    rewrite settle_homerun. simpl.
    pose proof (occupied_range (runners s)). repeat split; lia.
Qed.

(** ** The handlers and the counters *)

Lemma advances_refl (s : Session) : advances s s.
Proof. unfold advances. repeat split; lia. Qed.

Lemma startPitch_game (now : float) (c : Screen) :
  game (startPitch now c)
  = if inPlay (game c) then game c
    else mkSession true 0 None (strikes (game c)) (outs (game c)) (runs (game c))
           (pitches (game c) + 1) (maxPitches (game c)) (gameOver (game c))
           (runners (game c)).
Proof. unfold startPitch. destruct (inPlay (game c)); reflexivity. Qed.

(** The session after the end of a flight: one strike is settled or
    nothing is, and the play is over. *)
Lemma flightEnd_game (c : Screen) :
  exists s', game (flightEnd c) = setInPlay false s'
             /\ (s' = game c \/ exists reason, s' = settleResult (Strike reason) (game c)).
Proof.
  unfold flightEnd.
  destruct (JS.truthy (swingAtRef c)); cbn [negb].
  - destruct (swingAtRef c) as [swingAt |].
    + destruct (ltb FOUL (JS.Math_abs (swingAt - CONTACT_PROGRESS))).
      * eexists. split; [reflexivity |]. right. eexists. reflexivity.
      * eexists. split; [reflexivity |]. left. reflexivity.
    + eexists. split; [reflexivity |]. left. reflexivity.
  - eexists. split; [reflexivity |]. right. eexists. reflexivity.
Qed.

Lemma classify_not_strike (env : Platform) (delta : float) (reason : StrikeReason) :
  classify env delta <> Some (Strike reason).
Proof.
  unfold classify.
  destruct (leb delta PERFECT); [discriminate |].
  destruct (leb delta GOOD); [discriminate |].
  destruct (leb delta OKAY); [discriminate |].
  destruct (leb delta FOUL); discriminate.
Qed.

Lemma doSwing_game (env : Platform) (c : Screen) :
  game (doSwing env c) = game c
  \/ exists r, game (doSwing env c) = setInPlay false (settleResult r (game c))
               /\ inPlay (game c) = true
               /\ classify env (JS.Math_abs (progress (game c) - CONTACT_PROGRESS))
                  = Some r.
Proof.
  unfold doSwing.
  destruct (inPlay (game c)) eqn:Hp; cbn [negb]; [| left; reflexivity].
  cbv zeta. change (game (setSwingAt _ c)) with (game c).
  destruct (classify env _) as [r |] eqn:Hr; [| left; reflexivity].
  right. exists r. repeat split.
Qed.

Lemma dispatch_advances (e : Event) (c : Screen) :
  isReset e = false -> advances (game c) (game (dispatch e c)).
Proof.
  intros He. destruct e as [now | now | env | | v]; try discriminate; simpl.
  - rewrite startPitch_game. destruct (inPlay (game c)); [apply advances_refl |].
    unfold advances. simpl. repeat split; lia.
  - unfold step. destruct (rafRef c) as [pt |]; [| apply advances_refl].
    cbv zeta. destruct (ltb _ 1).
    + unfold advances. simpl. repeat split; lia.
    + match goal with |- context [flightEnd ?x] =>
        destruct (flightEnd_game x) as (s' & -> & [-> | [reason ->]]) end.
      * unfold advances. simpl. repeat split; lia.
      * match goal with |- context [settleResult ?r ?s] =>
          destruct (settleResult_advances r s) as [A _] end.
        unfold advances in *. simpl in *. exact A.
  - destruct (doSwing_game env c) as [-> | (r & -> & _)]; [apply advances_refl |].
    destruct (settleResult_advances r (game c)) as [A _].
    unfold advances in *. simpl. exact A.
  - apply advances_refl.
Qed.

(** The effects leave runs, the pitch count and the limit alone, never
    lower the game-over flag, and bring three outs back to none. *)
Lemma effects_cells (before s : Session) :
  runs (effects before s) = runs s
  /\ pitches (effects before s) = pitches s
  /\ maxPitches (effects before s) = maxPitches s
  /\ progress (effects before s) = progress s
  /\ (gameOver s = true -> gameOver (effects before s) = true)
  /\ (strikes (effects before s) = strikes s \/ strikes (effects before s) = 0)
  /\ (outs (effects before s)
      = if (outs before =? outs s) || negb (3 <=? outs s) then outs s else 0).
Proof.
  unfold effects, inningEffect, gameOverEffect.
  destruct (outs before =? outs s); cbn [orb];
    [| destruct (3 <=? outs s); cbn [negb] ];
    cbv zeta;
    match goal with
    | |- context [pitches before =? pitches ?x] =>
        destruct (pitches before =? pitches x);
        [| destruct (maxPitches x <=? pitches x) ]
    end; simpl; repeat split; auto.
Qed.

Lemma handle_keeps_ranges (c : Screen) (e : Event) :
  countersInRange (game c) -> countersInRange (game (handle c e)).
Proof.
  intros (Hs & Ho & Hr & Hp & Hm). unfold handle, update. cbn [game].
  destruct (effects_cells (game c) (game (dispatch e c)))
    as (Er & Ep & Em & _ & _ & Es & Eo).
  unfold countersInRange. rewrite Er, Ep, Em, Eo. clear Er Ep Em Eo.
  destruct (isReset e) eqn:He.
  - destruct e; try discriminate.
    change (game (dispatch Reset c)) with (resetAll (game c)) in *.
    rewrite resetAll_cells in *.
    cbn [strikes outs runs pitches maxPitches] in *.
    change (3 <=? 0) with false. rewrite orb_true_r.
    repeat split; try lia; destruct Es as [-> | ->]; lia.
  - destruct (dispatch_advances e c He) as (Ar & Ap & Am & Ao & As & _).
    specialize (As Hs).
    split; [destruct Es as [-> | ->]; lia |].
    split; [| repeat split; lia].
    destruct (Z.eqb_spec (outs (game c)) (outs (game (dispatch e c)))) as [E | N];
      cbn [orb]; [lia |].
    destruct (Z.leb_spec 3 (outs (game (dispatch e c)))); cbn [negb]; lia.
Qed.

Lemma run_keeps_ranges (es : list Event) (c : Screen) :
  countersInRange (game c) -> countersInRange (game (run es c)).
Proof.
  revert c. induction es as [| e es IH]; intros c Hc; [exact Hc |].
  simpl. apply IH. apply handle_keeps_ranges. exact Hc.
Qed.

(** X3. In every state the component can reach, the strike count is 0, 1
    or 2, the outs are 0, 1 or 2, runs and the pitch count are not
    negative, and the pitch limit is at least its initial 5. *)
Theorem X3_reachable_counters_in_range (c : Screen) :
  Reachable c -> countersInRange (game c).
Proof.
  intros [es <-]. apply run_keeps_ranges.
  unfold countersInRange. simpl. lia.
Qed.

Lemma X3_reachable_counters_in_range_witness : countersInRange (game afterFoul).
Proof.
  apply (X3_reachable_counters_in_range afterFoul).
  exists [Pitch 1000; Frame 1570; Swing sampleEnv]. reflexivity.
Defined.

Lemma handle_continues (c : Screen) (e : Event) :
  isReset e = false -> continues (game c) (game (handle c e)).
Proof.
  intros He. unfold handle, update. cbn [game].
  destruct (effects_cells (game c) (game (dispatch e c)))
    as (Er & Ep & Em & _ & Eg & _ & _).
  destruct (dispatch_advances e c He) as (Ar & Ap & Am & _ & _ & Ag).
  unfold continues. rewrite Er, Ep, Em.
  repeat split; try lia.
  intros G. apply Eg. rewrite Ag. exact G.
Qed.

(** X4. As long as the session is not reset, whatever else happens (pitches,
    frames, swings, velocity changes), runs never decrease, the pitch count
    never decreases, the pitch limit never decreases, and a game that is
    over stays over. *)
Theorem X4_no_reset_nothing_goes_back (es : list Event) (c : Screen) :
  forallb (fun e => negb (isReset e)) es = true ->
  continues (game c) (game (run es c)).
Proof.
  revert c. induction es as [| e es IH]; intros c Hes.
  - unfold continues. simpl. repeat split; auto; lia.
  - simpl in Hes. apply andb_true_iff in Hes. destruct Hes as [He Hes].
    apply negb_true_iff in He.
    destruct (handle_continues c e He) as (R1 & P1 & M1 & G1).
    destruct (IH (handle c e) Hes) as (R2 & P2 & M2 & G2).
    change (run (e :: es) c) with (run es (handle c e)).
    unfold continues. repeat split; try lia.
    intros G. apply G2, G1, G.
Qed.

Lemma X4_no_reset_nothing_goes_back_witness :
  continues (game initialScreen) (game afterFoul).
Proof.
  apply (X4_no_reset_nothing_goes_back
           [Pitch 1000; Frame 1570; Swing sampleEnv] initialScreen).
  reflexivity.
Defined.

Lemma handle_limit (c : Screen) (e : Event) :
  maxPitches (game c) <= maxPitches (game (handle c e)).
Proof.
  destruct (isReset e) eqn:He.
  - destruct e; try discriminate. unfold handle, update. cbn [game].
    destruct (effects_cells (game c) (game (dispatch Reset c))) as (_ & _ & Em & _).
    rewrite Em. change (game (dispatch Reset c)) with (resetAll (game c)).
    rewrite resetAll_cells. cbn [maxPitches]. lia.
  - apply (handle_continues c e He).
Qed.

(** X5. The pitch limit is never lowered by anything, a reset included: over
    any sequence of events it only stays or grows. *)
Theorem X5_pitch_limit_never_lowered (es : list Event) (c : Screen) :
  maxPitches (game c) <= maxPitches (game (run es c)).
Proof.
  revert c. induction es as [| e es IH]; intros c; [simpl; lia |].
  change (run (e :: es) c) with (run es (handle c e)).
  pose proof (handle_limit c e). pose proof (IH (handle c e)). lia.
Qed.

(** ** Progress *)

Lemma clamp_in_range (v lo hi : float) :
  leb lo hi = true -> is_nan v = false ->
  leb lo (clamp v lo hi) = true /\ leb (clamp v lo hi) hi = true.
Proof.
  intros Hb Hv. destruct (FloatOrder.leb_not_nan lo hi Hb) as [Hlo Hhi].
  unfold clamp.
  destruct (Math_min_spec hi v Hhi Hv) as (Hm & Hmh & _).
  assert (Nm : is_nan (JS.Math_min hi v) = false)
    by (destruct Hm as [-> | ->]; assumption).
  destruct (Math_max_spec lo (JS.Math_min hi v) Hlo Nm) as (Hr & Hlr & _).
  split; [exact Hlr |].
  destruct Hr as [-> | ->]; assumption.
Qed.

Lemma effects_inPlay (before s : Session) :
  inPlay (effects before s) = true -> inPlay s = true.
Proof.
  unfold effects, inningEffect, gameOverEffect.
  destruct (outs before =? outs s); [| destruct (3 <=? outs s)];
    cbv zeta;
    match goal with
    | |- context [pitches before =? pitches ?x] =>
        destruct (pitches before =? pitches x);
        [| destruct (maxPitches x <=? pitches x) ]
    end; cbn; congruence.
Qed.

Lemma dispatch_progress (e : Event) (c : Screen) :
  progressInRange (game c) -> progressInRange (game (dispatch e c)).
Proof.
  intros Hc. destruct e as [now | now | env | | v]; cbn [dispatch].
  - rewrite startPitch_game. destruct (inPlay (game c)); [exact Hc |].
    right. split; reflexivity.
  - unfold step. destruct (rafRef c) as [pt |]; [| exact Hc].
    cbv zeta.
    set (t := clamp _ 0 1).
    assert (Ht : progressInRange (setProgress t (game c))).
    { unfold progressInRange. cbn [setProgress progress]. subst t.
      match goal with |- context [clamp ?x 0 1] => destruct (is_nan x) eqn:Hx end.
      - left. rewrite clamp_nan by exact Hx. reflexivity.
      - right. apply clamp_in_range; [reflexivity | exact Hx]. }
    destruct (ltb t 1); [exact Ht |].
    match goal with |- context [flightEnd ?x] =>
      destruct (flightEnd_game x) as (s' & -> & [-> | [reason ->]]) end.
    + exact Ht.
    + unfold progressInRange in *. cbn [setInPlay progress].
      rewrite (proj2 (proj2 (settleResult_advances _ _))). exact Ht.
  - destruct (doSwing_game env c) as [-> | (r & -> & _)]; [exact Hc |].
    unfold progressInRange in *. cbn [setInPlay progress].
    rewrite (proj2 (proj2 (settleResult_advances _ _))). exact Hc.
  - right. split; reflexivity.
  - exact Hc.
Qed.

(** X6. In every reachable state the progress of the pitch is a fraction
    between 0 and 1, both included, unless a time stamp made it NaN. *)
Theorem X6_reachable_progress_in_unit_range (c : Screen) :
  Reachable c -> progressInRange (game c).
Proof.
  intros [es <-].
  assert (H : forall es c0, progressInRange (game c0) ->
                            progressInRange (game (run es c0))).
  { clear es. induction es as [| e es IH]; intros c0 H0; [exact H0 |].
    change (run (e :: es) c0) with (run es (handle c0 e)).
    apply IH. unfold handle, update. cbn [game].
    pose proof (dispatch_progress e c0 H0) as Hd.
    unfold progressInRange in *.
    destruct (effects_cells (game c0) (game (dispatch e c0))) as (_ & _ & _ & Ep & _).
    rewrite Ep. exact Hd. }
  apply H. right. split; reflexivity.
Qed.

Lemma X6_reachable_progress_in_unit_range_witness : progressInRange (game atContact).
Proof.
  apply (X6_reachable_progress_in_unit_range atContact).
  exists [Pitch 1000; Frame 1602]. reflexivity.
Defined.

(** ** The frame loop *)

Lemma handle_flightScheduled (c : Screen) (e : Event) :
  flightScheduled c -> flightScheduled (handle c e).
Proof.
  intros Hc. unfold flightScheduled in Hc. unfold flightScheduled, handle, update.
  cbn [game rafRef startTsRef].
  intros Hp. apply effects_inPlay in Hp. revert Hp.
  destruct e as [now | now | env | | v]; cbn [dispatch].
  - unfold startPitch.
    destruct (inPlay (game c)); [intros _; apply Hc; reflexivity |].
    intros _. cbn. split; discriminate.
  - unfold step. destruct (rafRef c) as [pt |];
      [| intros Hp; destruct (Hc Hp) as [N _]; congruence].
    cbv zeta. destruct (ltb _ 1).
    + cbn. intros Hp. split; [discriminate | apply Hc, Hp].
    + match goal with |- context [flightEnd ?x] =>
        destruct (flightEnd_game x) as (s' & -> & _) end.
      cbn. discriminate.
  - unfold doSwing.
    destruct (inPlay (game c)) eqn:Hi; cbn [negb]; [| intros Hp; congruence].
    cbv zeta. destruct (classify env _); cbn; [discriminate |].
    intros _. apply Hc. reflexivity.
  - cbn. discriminate.
  - cbn. exact Hc.
Qed.

(** X7. In every reachable state a pitch that is in flight has a frame
    callback scheduled and a recorded start time, so its flight goes on. *)
Theorem X7_reachable_flight_is_scheduled (c : Screen) :
  Reachable c -> flightScheduled c.
Proof.
  intros [es <-].
  assert (H : forall es c0, flightScheduled c0 -> flightScheduled (run es c0)).
  { clear es. induction es as [| e es IH]; intros c0 H0; [exact H0 |].
    change (run (e :: es) c0) with (run es (handle c0 e)).
    apply IH, handle_flightScheduled, H0. }
  apply H. unfold flightScheduled. cbn. discriminate.
Qed.

Lemma X7_reachable_flight_is_scheduled_witness : flightScheduled atContact.
Proof.
  apply (X7_reachable_flight_is_scheduled atContact).
  exists [Pitch 1000; Frame 1602]. reflexivity.
Defined.

(** ** The pitch that reaches the limit *)

Lemma effects_same (s : Session) : effects s s = s.
Proof. unfold effects. rewrite !Z.eqb_refl. reflexivity. Qed.

(** A swing, or a pitch request, that the handler ignores leaves the whole
    component as it was. *)
Lemma handle_swing_idle (env : Platform) (c : Screen) :
  inPlay (game c) = false -> handle c (Swing env) = c.
Proof.
  intros Hi. unfold handle. cbn [dispatch]. unfold doSwing. rewrite Hi. cbn [negb].
  unfold update. rewrite effects_same. destruct c; reflexivity.
Qed.

(** While no pitch is requested, a play that is over stays over. *)
Lemma handle_stays_idle (c : Screen) (e : Event) :
  isPitch e = false -> inPlay (game c) = false -> inPlay (game (handle c e)) = false.
Proof.
  intros He Hi.
  assert (D : inPlay (game (dispatch e c)) = false).
  { destruct e as [now | now | env | | v]; try discriminate; cbn [dispatch].
    - unfold step. destruct (rafRef c) as [pt |]; [| exact Hi].
      cbv zeta. destruct (ltb _ 1); [exact Hi |].
      match goal with |- context [flightEnd ?x] =>
        destruct (flightEnd_game x) as (s' & -> & _) end.
      reflexivity.
    - unfold doSwing. rewrite Hi. exact Hi.
    - reflexivity.
    - exact Hi. }
  unfold handle, update. cbn [game].
  destruct (inPlay (effects (game c) (game (dispatch e c)))) eqn:Hp; [| reflexivity].
  apply effects_inPlay in Hp. congruence.
Qed.

(** With the play over and no pitch requested, the swings of a sequence of
    events can be struck out of it: the component ends in the same state. *)
Lemma run_idle_ignores_swings (es : list Event) (c : Screen) :
  forallb (fun e => negb (isPitch e)) es = true ->
  inPlay (game c) = false ->
  inPlay (game (run es c)) = false /\ run es c = run (withoutSwings es) c.
Proof.
  revert c. induction es as [| e es IH]; intros c Hes Hi.
  - split; [exact Hi | reflexivity].
  - cbn [forallb] in Hes. apply andb_true_iff in Hes. destruct Hes as [He Hes].
    apply negb_true_iff in He.
    change (run (e :: es) c) with (run es (handle c e)).
    destruct (IH (handle c e) Hes (handle_stays_idle c e He Hi)) as [I1 E1].
    split; [exact I1 |].
    unfold withoutSwings. cbn [filter]. fold (withoutSwings es).
    destruct e as [now | now | env | | v]; cbn [isSwing negb]; try exact E1.
    rewrite (handle_swing_idle env c Hi) in E1 |- *. exact E1.
Qed.

(** X8. When a pitch is accepted whose number reaches the pitch limit, the
    game is declared over in the same step and the play is marked ended
    although the frame callback stays scheduled.  From then on, through any
    frames, swings, velocity changes and resets and until another pitch is
    requested, the play stays ended and every swing is ignored: the
    component ends in the state it reaches with the swings left out, and a
    further swing leaves it as it is. *)
Theorem X8_pitch_reaching_limit_cannot_be_hit
        (now : float) (env : Platform) (es : list Event) (c : Screen) :
  inPlay (game c) = false ->
  maxPitches (game c) <= pitches (game c) + 1 ->
  forallb (fun e => negb (isPitch e)) es = true ->
  let c' := handle c (Pitch now) in
  pitches (game c') = pitches (game c) + 1
  /\ gameOver (game c') = true
  /\ inPlay (game c') = false
  /\ rafRef c' = Some (plateTime c)
  /\ inPlay (game (run es c')) = false
  /\ run es c' = run (withoutSwings es) c'
  /\ handle (run es c') (Swing env) = run es c'.
Proof.
  intros Hi Hm Hes. cbv zeta.
  assert (E : game (handle c (Pitch now))
              = mkSession false 0 None (strikes (game c)) (outs (game c)) (runs (game c))
                  (pitches (game c) + 1) (maxPitches (game c)) true (runners (game c))).
  { unfold handle, update. cbn [game dispatch]. rewrite startPitch_game, Hi.
    unfold effects. cbn [outs]. rewrite Z.eqb_refl. cbv zeta. cbn [pitches].
    destruct (Z.eqb_spec (pitches (game c)) (pitches (game c) + 1)) as [Eq | _]; [lia |].
    unfold gameOverEffect. cbn [maxPitches pitches].
    destruct (Z.leb_spec (maxPitches (game c)) (pitches (game c) + 1)); [reflexivity | lia]. }
  assert (Hi' : inPlay (game (handle c (Pitch now))) = false) by (rewrite E; reflexivity).
  destruct (run_idle_ignores_swings es (handle c (Pitch now)) Hes Hi') as [I1 E1].
  split; [rewrite E; reflexivity |].
  split; [rewrite E; reflexivity |].
  split; [exact Hi' |].
  split.
  { unfold handle, update. cbn [rafRef dispatch]. unfold startPitch.
    rewrite Hi. reflexivity. }
  split; [exact I1 |].
  split; [exact E1 |].
  apply handle_swing_idle. exact I1.
Qed.

Lemma X8_pitch_reaching_limit_cannot_be_hit_witness :
  let c := update (setPitches (fun _ => 4)) initialScreen in
  let c' := handle c (Pitch 1000) in
  let es := [Frame 1300; Frame 1602; Swing sampleEnv; Frame 1650] in
  gameOver (game c') = true
  /\ runs (game (run es c')) = 0
  /\ handle (run es c') (Swing sampleEnv) = run es c'.
Proof.
  cbv zeta.
  destruct (X8_pitch_reaching_limit_cannot_be_hit 1000 sampleEnv
              [Frame 1300; Frame 1602; Swing sampleEnv; Frame 1650]
              (update (setPitches (fun _ => 4)) initialScreen))
    as (_ & G & _ & _ & _ & _ & S).
  - reflexivity.
  - vm_compute. discriminate.
  - reflexivity.
  - split; [exact G |]. split; [reflexivity | exact S].
Defined.

(** ** Base hits *)

(** X9. A single, double or triple sets the strike count to 0, puts the
    runners where [advanceBases] puts them for 1, 2 or 3 bases, and adds to
    the runs one for the batter plus the runners who scored, leaving every
    other cell; so the runs gained plus the bases occupied afterwards are
    the bases occupied before plus two. *)
Theorem X9_base_hit_scores_one_plus_scored
        (s : Session) (k : HitKind) (delta exitVelo launchDeg distance : float) :
  k <> homerun ->
  let r := Hit k delta exitVelo launchDeg distance in
  let s' := settleResult r s in
  s' = mkSession (inPlay s) (progress s) (Some r) 0 (outs s)
         (runs s + 1 + snd (advanceBases (runners s) (basesGained k)))
         (pitches s) (maxPitches s) (gameOver s)
         (fst (advanceBases (runners s) (basesGained k)))
  /\ (runs s' - runs s) + occupied (runners s') = occupied (runners s) + 2.
Proof.
  intros Hk. cbv zeta. rewrite (settle_base_hit s k _ _ _ _ Hk).
  split; [reflexivity |]. cbn [runs runners].
  pose proof (advanceBases_balance (runners s) (basesGained k) (basesGained_range k)).
  lia.
Qed.

Lemma X9_base_hit_scores_one_plus_scored_witness :
  let s := mkSession true 0.86 None 1 1 0 2 5 false (mkRunners true true true) in
  runs (settleResult (Hit single 0.03 35 12 40) s) = 2
  /\ runners (settleResult (Hit single 0.03 35 12 40) s) = mkRunners true true true.
Proof.
  cbv zeta.
  destruct (X9_base_hit_scores_one_plus_scored
              (mkSession true 0.86 None 1 1 0 2 5 false (mkRunners true true true))
              single 0.03 35 12 40 ltac:(discriminate)) as [E _].
  rewrite E. split; reflexivity.
Defined.

(** ** What a swing can settle *)

(** X10. The swing ladder settles only a foul, a single, a double or a home
    run, never a triple and never a strike, and the result carries the
    timing error it was classified on; a swing therefore never changes the
    outs, the pitch count or the game-over flag. *)
Theorem X10_swing_settles_no_strike_no_triple (env : Platform) (delta : float) (c : Screen) :
  match classify env delta with
  | Some (Strike _) => False
  | Some (Foul t) => t = delta
  | Some (Hit k t _ _ _) => t = delta /\ k <> triple
  | None => True
  end
  /\ outs (game (doSwing env c)) = outs (game c)
  /\ pitches (game (doSwing env c)) = pitches (game c)
  /\ gameOver (game (doSwing env c)) = gameOver (game c).
Proof.
  split.
  - unfold classify.
    destruct (leb delta PERFECT); [split; [reflexivity | discriminate] |].
    destruct (leb delta GOOD); [split; [reflexivity | discriminate] |].
    destruct (leb delta OKAY).
    + split; [reflexivity |]. destruct (ltb delta (OKAY * 0.6)); discriminate.
    + destruct (leb delta FOUL); [reflexivity | exact I].
  - destruct (doSwing_game env c) as [-> | (r & -> & _ & Hr)]; [repeat split |].
    cbn [setInPlay outs pitches gameOver].
    destruct r as [reason | d | k d ev la di].
    + exfalso. exact (classify_not_strike _ _ _ Hr).
    + rewrite settle_foul. repeat split.
    + destruct k.
      1-3: rewrite settle_base_hit by discriminate; repeat split.
      rewrite settle_homerun. repeat split.
Qed.

(** ** Reset and the frame loop *)



(** ** One result for one pitch *)

Lemma classify_within_foul (env : Platform) (delta : float) (r : HitResult) :
  classify env delta = Some r -> leb delta FOUL = true.
Proof.
  unfold classify.
  destruct (leb delta PERFECT) eqn:H1;
    [intros _; apply (FloatOrder.leb_trans delta PERFECT FOUL H1); reflexivity |].
  destruct (leb delta GOOD) eqn:H2;
    [intros _; apply (FloatOrder.leb_trans delta GOOD FOUL H2); reflexivity |].
  destruct (leb delta OKAY) eqn:H3;
    [intros _; apply (FloatOrder.leb_trans delta OKAY FOUL H3); reflexivity |].
  destruct (leb delta FOUL); [reflexivity | discriminate].
Qed.

Lemma classify_nan (env : Platform) (t : float) :
  is_nan t = true -> classify env (JS.Math_abs (t - CONTACT_PROGRESS)) = None.
Proof.
  intros H. unfold classify, JS.Math_abs.
  rewrite !(FloatOrder.leb_abs_sub_nan t CONTACT_PROGRESS _ H). reflexivity.
Qed.

(** A swing that settles a result was sampled at a progress that is a
    non-zero number. *)
Lemma classify_truthy (env : Platform) (t : float) (r : HitResult) :
  classify env (JS.Math_abs (t - CONTACT_PROGRESS)) = Some r ->
  JS.truthy (Some t) = true.
Proof.
  intros H. unfold JS.truthy.
  destruct (is_nan t) eqn:Hn; [rewrite (classify_nan env t Hn) in H; discriminate |].
  destruct (is_zero t) eqn:Hz; [| reflexivity].
  destruct (FloatOrder.is_zero_cases t Hz) as [-> | ->];
    destruct env as [u1 u2 sin]; vm_compute in H; discriminate.
Qed.

Lemma effects_unchanged (before s : Session) :
  outs before = outs s -> pitches before = pitches s -> effects before s = s.
Proof.
  intros Ho Hp. unfold effects. rewrite Ho, Z.eqb_refl. cbv zeta.
  rewrite Hp, Z.eqb_refl. reflexivity.
Qed.

(** The component right after a swing that settles [r]. *)
Lemma swing_settles_screen (env : Platform) (r : HitResult) (c : Screen) :
  inPlay (game c) = true ->
  classify env (JS.Math_abs (progress (game c) - CONTACT_PROGRESS)) = Some r ->
  handle c (Swing env)
  = mkScreen (setInPlay false (settleResult r (game c))) (mph c)
             (Some (progress (game c))) (rafRef c) (startTsRef c).
Proof.
  intros Hp Hr.
  assert (D : dispatch (Swing env) c
              = update (settleResult r ;; setInPlay false)
                       (setSwingAt (Some (progress (game c))) c)).
  { cbn [dispatch]. unfold doSwing. rewrite Hp. cbn [negb]. cbv zeta.
    change (game (setSwingAt _ c)) with (game c). rewrite Hr. reflexivity. }
  assert (O : outs (setInPlay false (settleResult r (game c))) = outs (game c)
              /\ pitches (setInPlay false (settleResult r (game c))) = pitches (game c)).
  { cbn [setInPlay outs pitches].
    destruct r as [reason | d | k d ev la di].
    - exfalso. exact (classify_not_strike _ _ _ Hr).
    - rewrite settle_foul. split; reflexivity.
    - destruct k.
      1-3: rewrite settle_base_hit by discriminate; split; reflexivity.
      rewrite settle_homerun. split; reflexivity. }
  destruct O as [Oo Op].
  unfold handle. rewrite D. unfold update, seq_update, setSwingAt.
  cbn [game mph swingAtRef rafRef startTsRef].
  rewrite effects_unchanged by (symmetry; assumption). reflexivity.
Qed.

Lemma velocity_sets_mph_only (v : float) (c : Screen) :
  handle c (Velocity v)
  = mkScreen (game c) v (swingAtRef c) (rafRef c) (startTsRef c).
Proof.
  unfold handle. cbn [dispatch]. unfold update, setMph.
  cbn [game mph swingAtRef rafRef startTsRef]. rewrite effects_same. reflexivity.
Qed.

(** Once a swing has settled the pitch, a frame, a swing or a velocity
    change keeps it settled and leaves the score as it is. *)
Lemma handle_after_settled (c : Screen) (e : Event) :
  isPitch e = false -> isReset e = false ->
  swingSettled c ->
  swingSettled (handle c e) /\ sameScore (game c) (game (handle c e)).
Proof.
  intros Hpi Hre (Hi & t0 & Hs & Ht & Hd).
  destruct e as [now | now | env | | v]; try discriminate.
  - assert (E : exists p,
               game (dispatch (Frame now) c) = setInPlay false (setProgress p (game c))
               /\ swingAtRef (dispatch (Frame now) c) = swingAtRef c).
    { cbn [dispatch]. unfold step.
      destruct (rafRef c) as [pt |].
      - cbv zeta. set (t := clamp _ 0 1). exists t.
        destruct (ltb t 1).
        + cbn [setRaf update game swingAtRef]. split; [| reflexivity].
          destruct (game c); cbn in Hi; subst; reflexivity.
        + unfold flightEnd. cbn [update swingAtRef]. rewrite Hs, Ht. cbn [negb].
          rewrite Hd. cbn [cancelRaf setRaf update swingAtRef game].
          split; [reflexivity | exact Hs].
      - exists (progress (game c)). split; [| reflexivity].
        destruct (game c); cbn in Hi; subst; reflexivity. }
    destruct E as (p & Eg & Es).
    unfold handle, update. cbn [game swingAtRef]. rewrite Eg, Es.
    rewrite effects_unchanged by reflexivity.
    split.
    + split; [reflexivity |]. exists t0. repeat split; assumption.
    + unfold sameScore. cbn. repeat split. symmetry. exact Hi.
  - rewrite (handle_swing_idle env c Hi).
    split; [split; [exact Hi | exists t0; repeat split; assumption] |].
    unfold sameScore. repeat split.
  - rewrite velocity_sets_mph_only. cbn [game].
    split; [split; [exact Hi | exists t0; repeat split; assumption] |].
    unfold sameScore. repeat split.
Qed.

Lemma run_after_settled (es : list Event) (c : Screen) :
  forallb (fun e => negb (isPitch e) && negb (isReset e)) es = true ->
  swingSettled c ->
  swingSettled (run es c) /\ sameScore (game c) (game (run es c)).
Proof.
  revert c. induction es as [| e es IH]; intros c Hes Hc.
  - split; [exact Hc |]. unfold sameScore. repeat split.
  - cbn [forallb] in Hes. apply andb_true_iff in Hes. destruct Hes as [He Hes].
    apply andb_true_iff in He. destruct He as [Hpi Hre].
    apply negb_true_iff in Hpi. apply negb_true_iff in Hre.
    change (run (e :: es) c) with (run es (handle c e)).
    destruct (handle_after_settled c e Hpi Hre Hc) as [S1 Q1].
    destruct (IH (handle c e) Hes S1) as [S2 Q2].
    split; [exact S2 |].
    unfold sameScore in *.
    destruct Q1 as (A1 & A2 & A3 & A4 & A5 & A6 & A7 & A8 & A9).
    destruct Q2 as (B1 & B2 & B3 & B4 & B5 & B6 & B7 & B8 & B9).
    repeat split; congruence.
Qed.

(** X12. One result for one pitch: once a swing has settled a result, no
    later frame, swing or velocity change, however many follow and the
    frame that ends the flight included, settles anything more until a
    pitch is requested or the session is reset; the result, strikes, outs,
    runs, runners and the pitch limit stay as the swing left them and the
    play stays ended. *)
Theorem X12_settled_swing_is_final
        (env : Platform) (r : HitResult) (es : list Event) (c : Screen) :
  inPlay (game c) = true ->
  classify env (JS.Math_abs (progress (game c) - CONTACT_PROGRESS)) = Some r ->
  forallb (fun e => negb (isPitch e) && negb (isReset e)) es = true ->
  let c1 := handle c (Swing env) in
  let c2 := run es c1 in
  game c1 = setInPlay false (settleResult r (game c))
  /\ result (game c2) = Some r
  /\ strikes (game c2) = strikes (game c1)
  /\ outs (game c2) = outs (game c1)
  /\ runs (game c2) = runs (game c1)
  /\ runners (game c2) = runners (game c1)
  /\ maxPitches (game c2) = maxPitches (game c1)
  /\ inPlay (game c2) = false.
Proof.
  intros Hp Hr Hes. cbv zeta.
  rewrite (swing_settles_screen env r c Hp Hr).
  set (c1 := mkScreen _ _ _ _ _).
  assert (S1 : swingSettled c1).
  { split; [reflexivity |]. exists (progress (game c)).
    split; [reflexivity |].
    split; [exact (classify_truthy env _ r Hr) |].
    exact (FloatOrder.leb_not_ltb _ _ (classify_within_foul env _ r Hr)). }
  destruct (run_after_settled es c1 Hes S1)
    as (_ & Q1 & Q2 & Q3 & Q4 & Q5 & Q6 & _ & _ & Q9).
  split; [reflexivity |].
  split; [rewrite Q1; subst c1; cbn [game setInPlay result]; apply settleResult_result |].
  repeat split; assumption.
Qed.

Lemma X12_settled_swing_is_final_witness :
  let c1 := handle atContact (Swing sampleEnv) in
  let es := [Frame 1650; Velocity 90; Swing sampleEnv; Frame 1700; Frame 1720] in
  hitKind (result (game (run es c1))) = Some homerun
  /\ strikes (game (run es c1)) = 0
  /\ runs (game (run es c1)) = 5.
Proof.
  cbv zeta.
  assert (Hp : inPlay (game atContact) = true) by reflexivity.
  destruct (X12_settled_swing_is_final sampleEnv _
              [Frame 1650; Velocity 90; Swing sampleEnv; Frame 1700; Frame 1720]
              atContact Hp eq_refl eq_refl)
    as (_ & R & S & _ & Ru & _).
  rewrite R, S, Ru. repeat split.
Defined.

(** ** Debouncing the sensor's notifications *)

Section Debounce.

Variable A : Type.
Variable toUpperCase : Text -> Text.
Variable swingToken : Text.
Variable debounceMs : float.
Variable onSwing : A -> A.

Lemma notifyAll_cons (note : option Text * float) (notes : list (option Text * float))
      (st : Ble * A) :
  notifyAll toUpperCase swingToken debounceMs onSwing (note :: notes) st
  = notifyAll toUpperCase swingToken debounceMs onSwing notes
      (handleNotify toUpperCase swingToken debounceMs onSwing (fst note) (snd note) st).
Proof. reflexivity. Qed.

(** One notification either leaves the registered state and the recorded
    time alone, or runs the callback once and records its time, which the
    debounce test allowed. *)
Lemma handleNotify_cases (value : option Text) (now : float) (b : Ble) (a : A) :
  let st' := handleNotify toUpperCase swingToken debounceMs onSwing value now (b, a) in
  (snd st' = a /\ lastSwingAtRef (fst st') = lastSwingAtRef b)
  \/ (snd st' = onSwing a /\ lastSwingAtRef (fst st') = now
      /\ leb debounceMs (now - lastSwingAtRef b) = true).
Proof.
  cbv zeta. unfold handleNotify. cbn [fst snd].
  destruct value as [text |]; [| left; split; reflexivity].
  cbn [lastSwingAtRef].
  destruct (includes (toUpperCase text) (toUpperCase swingToken));
    [| left; split; reflexivity].
  destruct (leb debounceMs (now - lastSwingAtRef b)) eqn:Hd;
    [right | left]; repeat split.
Qed.

(** After a swing accepted at [t], notes inside its window change neither
    the recorded time nor the registered state. *)
Lemma notifyAll_inside_window (notes : list (option Text * float)) (st : Ble * A) :
  Forall (fun note => insideWindow debounceMs (lastSwingAtRef (fst st)) (snd note)) notes ->
  snd (notifyAll toUpperCase swingToken debounceMs onSwing notes st) = snd st.
Proof.
  revert st. induction notes as [| [value now] notes IH]; intros [b a] Hw.
  - reflexivity.
  - inversion Hw as [| ? ? Hn Hrest]; subst. unfold insideWindow in Hn.
    cbn [fst snd] in Hn, Hrest. rewrite notifyAll_cons. cbn [fst snd].
    destruct (handleNotify_cases value now b a) as [[Ea Eb] | (_ & _ & Hd)];
      [| congruence].
    rewrite IH; [exact Ea |]. rewrite Eb. exact Hrest.
Qed.

(** X13. Debouncing: when every note of a sequence falls inside the window
    of every earlier one, the registered callback runs at most once over
    the whole sequence, whatever the notes carry and whenever the last
    swing before them was. *)
Theorem X13_notes_within_window_swing_at_most_once
        (notes : list (option Text * float)) (b : Ble) (a : A) :
  ForallOrdPairs (fun n1 n2 => insideWindow debounceMs (snd n1) (snd n2)) notes ->
  snd (notifyAll toUpperCase swingToken debounceMs onSwing notes (b, a)) = a
  \/ snd (notifyAll toUpperCase swingToken debounceMs onSwing notes (b, a)) = onSwing a.
Proof.
  revert b. induction notes as [| [value now] notes IH]; intros b Hw.
  - left. reflexivity.
  - inversion Hw as [| ? ? Hfirst Hrest]; subst. cbn [snd] in Hfirst.
    rewrite notifyAll_cons. cbn [fst snd].
    destruct (handleNotify_cases value now b a) as [[Ea Eb] | (Ea & Eb & _)].
    + destruct (handleNotify _ _ _ _ value now (b, a)) as [b' a'].
      cbn [snd] in Ea. subst a'. apply IH. exact Hrest.
    + right. rewrite notifyAll_inside_window; [exact Ea |].
      rewrite Eb. exact Hfirst.
Qed.

End Debounce.

Lemma X13_notes_within_window_swing_at_most_once_witness :
  snd (notifyAll asciiUpper SWING 250 S
         [(Some swing, 1000%float); (Some SWING, 1100%float); (Some SWING, 1200%float)]
         (initialBle, O))
  = 1%nat.
Proof.
  destruct (X13_notes_within_window_swing_at_most_once nat asciiUpper SWING 250 S
              [(Some swing, 1000%float); (Some SWING, 1100%float); (Some SWING, 1200%float)]
              initialBle O) as [H | H].
  - repeat constructor.
  - vm_compute in H. discriminate.
  - exact H.
Defined.

(** ** The third strike of the third out *)

(** The frame that completes a flight nobody swung at. *)
Lemma frame_ends_unswung_flight (now plateTime : float) (c : Screen) :
  rafRef c = Some plateTime ->
  JS.truthy (swingAtRef c) = false ->
  ltb (clamp ((now - JS.or_else (startTsRef c) now) / plateTime) 0 1) 1 = false ->
  game (dispatch (Frame now) c)
  = setInPlay false
      (settleResult (Strike miss)
         (setProgress (clamp ((now - JS.or_else (startTsRef c) now) / plateTime) 0 1)
                      (game c))).
Proof.
  intros Hr Hs Ht. cbn [dispatch]. unfold step. rewrite Hr. cbv zeta. rewrite Ht.
  unfold flightEnd. cbn [update swingAtRef]. rewrite Hs. reflexivity.
Qed.

(** X14. A pitch nobody swings at, arriving with two strikes and two outs,
    ends the half-inning in a single step: it is settled as a missed
    strike, and strikes and outs are back to 0 and the bases are empty,
    while runs and the pitch count keep their values. *)
Theorem X14_third_strike_of_third_out_ends_inning (now plateTime : float) (c : Screen) :
  rafRef c = Some plateTime ->
  JS.truthy (swingAtRef c) = false ->
  ltb (clamp ((now - JS.or_else (startTsRef c) now) / plateTime) 0 1) 1 = false ->
  strikes (game c) = 2 ->
  outs (game c) = 2 ->
  let c' := handle c (Frame now) in
  result (game c') = Some (Strike miss)
  /\ strikes (game c') = 0
  /\ outs (game c') = 0
  /\ runners (game c') = noRunners
  /\ runs (game c') = runs (game c)
  /\ pitches (game c') = pitches (game c)
  /\ inPlay (game c') = false.
Proof.
  intros Hr Hs Ht St Ou. cbv zeta. unfold handle, update. cbn [game].
  rewrite (frame_ends_unswung_flight now plateTime c Hr Hs Ht).
  rewrite settle_strike. cbn [setProgress setInPlay strikes outs].
  rewrite St, Ou. cbn [Z.add Z.leb Z.compare Pos.add Pos.succ Pos.compare Pos.compare_cont].
  unfold effects. cbn [outs pitches]. rewrite Ou.
  change (2 =? 3) with false. cbv zeta iota.
  unfold inningEffect. cbn [outs]. change (3 <=? 3) with true. cbv iota.
  unfold seq_update, setOuts, setStrikes, setRunners, skip. cbn.
  rewrite Z.eqb_refl. repeat split.
Qed.

Lemma X14_third_strike_of_third_out_ends_inning_witness :
  let c := update (setStrikes (fun _ => (2, skip)) ;; setOuts (fun _ => 2)
                   ;; setRuns (fun _ => 3))
                  (run [Pitch 1000] initialScreen) in
  outs (game (handle c (Frame 1700))) = 0 /\ runs (game (handle c (Frame 1700))) = 3.
Proof.
  cbv zeta.
  destruct (X14_third_strike_of_third_out_ends_inning 1700 700
              (update (setStrikes (fun _ => (2, skip)) ;; setOuts (fun _ => 2)
                       ;; setRuns (fun _ => 3))
                      (run [Pitch 1000] initialScreen)))
    as (_ & _ & O & _ & R & _); try reflexivity.
  split; [exact O | exact R].
Defined.

(** ** Velocity changes *)

Lemma handle_velocity (v : float) (c : Screen) : handle c (Velocity v) = setMph v c.
Proof.
  unfold handle. cbn [dispatch]. unfold update, setMph.
  cbn [game mph swingAtRef rafRef startTsRef]. rewrite effects_same. reflexivity.
Qed.

(** X15. A velocity change takes effect on the next pitch only: the frames
    of a pitch already in flight advance by the duration captured when it
    started, so the session after a frame is the same with or without the
    change; the next accepted pitch is scheduled with the duration of the
    new velocity. *)
Theorem X15_velocity_applies_to_next_pitch (v now : float) (c : Screen) :
  game (handle (handle c (Velocity v)) (Frame now)) = game (handle c (Frame now))
  /\ rafRef (handle (handle c (Velocity v)) (Frame now)) = rafRef (handle c (Frame now))
  /\ (inPlay (game c) = false ->
      rafRef (handle (handle c (Velocity v)) (Pitch now))
      = Some (plateTimeMsFromMph v)).
Proof.
  rewrite handle_velocity.
  assert (E : forall c0 : Screen,
             game (dispatch (Frame now) (setMph v c0)) = game (dispatch (Frame now) c0)
             /\ rafRef (dispatch (Frame now) (setMph v c0))
                = rafRef (dispatch (Frame now) c0)).
  { intros c0. cbn [dispatch]. unfold step. cbn [setMph rafRef startTsRef].
    destruct (rafRef c0) as [pt |]; [| split; reflexivity].
    cbv zeta. destruct (ltb _ 1); [split; reflexivity |].
    unfold flightEnd. cbn [update setMph swingAtRef game].
    destruct (JS.truthy (swingAtRef c0)); cbn [negb]; [| split; reflexivity].
    destruct (swingAtRef c0) as [swingAt |]; [| split; reflexivity].
    destruct (ltb FOUL _); split; reflexivity. }
  destruct (E c) as [Eg Er].
  split; [| split].
  - unfold handle, update. cbn [game]. rewrite Eg. reflexivity.
  - unfold handle, update. cbn [rafRef]. exact Er.
  - intros Hi. unfold handle, update. cbn [rafRef dispatch]. unfold startPitch.
    cbn [setMph game]. rewrite Hi. reflexivity.
Qed.
